(** * Configuration resolution of AI Documenter (src/classes/config.ts)

    A shallow embedding of [ConfigBuilder] and [ConfigManager] and the
    properties of the layered configuration they resolve.

    Conventions of the embedding.
    - A JavaScript object used as a bag of properties is a
      [gmap string Value]; an absent key is an absent own property.
    - A JavaScript string is the [string] of its UTF-8 bytes.
    - A JavaScript number is a [number]: NaN, an infinity, or the dyadic
      rational [m * 2^e] (every finite binary64 value has that shape).
    - A function that can throw returns a sum: [inl] is the thrown error.
    - Code of other modules and of the platform (the schema validator of
      helpers/validation, [getErrorMessage], [JSON.parse], [dotenv.config],
      [path.join], the [URL] constructor) is a field of the class
      [Externals]; every definition and theorem that depends on it holds
      for each instance. *)

From Stdlib Require Import ZArith Ascii String List Bool Lia.
From stdpp Require Import gmap strings list fin_maps pretty.

Set Warnings "-register-all".
Local Open Scope string_scope.

(** ** JavaScript values *)

Inductive number :=
| NaN
| Infinity (negative : bool)
| Finite (m e : Z).

Inductive Value :=
| VUndefined
| VNull
| VBool (b : bool)
| VNumber (n : number)
| VString (s : string)
| VArray (xs : list Value)
| VObject (props : gmap string Value).

Abbreviation Obj := (gmap string Value).

(** ToBoolean: the falsy values are undefined, null, false, 0, NaN and the
    empty string. *)
Definition truthy (v : Value) : bool :=
  match v with
  | VUndefined | VNull => false
  | VBool b => b
  | VNumber NaN => false
  | VNumber (Infinity _) => true
  | VNumber (Finite m _) => negb (m =? 0)%Z
  | VString s => negb (String.eqb s "")
  | VArray _ | VObject _ => true
  end.

(** Property access [o.k]: an absent property reads as undefined. *)
Definition prop (o : Obj) (k : string) : Value := default VUndefined (o !! k).

(** [v === 'literal']. *)
Definition strictEqString (v : Value) (s : string) : bool :=
  match v with
  | VString s' => String.eqb s' s
  | _ => false
  end.

(** [{ ...a, ...b }]: every own property of [b] replaces the one of [a]. *)
Definition spread (a b : Obj) : Obj := b ∪ a.

(** The own enumerable properties that a spread copies out of an arbitrary
    value: those of an object, the indices of an array, the indices of a
    primitive string (one key per byte here, which is one per code unit for
    ASCII text), and none for the other primitives. *)
Definition ownProperties (v : Value) : Obj :=
  match v with
  | VObject props => props
  | VArray xs => list_to_map (imap (fun i x => (pretty i, x)) xs)
  | VString s =>
      list_to_map
        (imap (fun i c => (pretty i, VString (String c EmptyString)))
              (list_ascii_of_string s))
  | _ => ∅
  end.

(** ** Strings and numbers of the platform *)

Definition lower_ascii (c : ascii) : ascii :=
  let n := nat_of_ascii c in
  if (65 <=? n)%nat && (n <=? 90)%nat then ascii_of_nat (n + 32) else c.

(** [String.prototype.toLowerCase] on the ASCII letters.  No character
    outside ASCII lower-cases to a letter of 'openai' or 'lmstudio', so the
    comparison the code makes after it is decided by the ASCII letters. *)
Fixpoint toLowerCase (s : string) : string :=
  match s with
  | EmptyString => EmptyString
  | String c r => String (lower_ascii c) (toLowerCase r)
  end.

Definition codes (s : string) : list nat :=
  map nat_of_ascii (list_ascii_of_string s).

(** White space and line terminators of ECMAScript, as UTF-8:
    TAB LF VT FF CR SP; U+00A0; U+1680, U+2000..U+200A, U+2028, U+2029,
    U+202F, U+205F, U+3000, U+FEFF. *)
Definition ws1 (c : nat) : bool :=
  ((9 <=? c) && (c <=? 13) || (c =? 32))%nat.

Definition ws2 (c1 c2 : nat) : bool := ((c1 =? 194) && (c2 =? 160))%nat.

Definition ws3 (c1 c2 c3 : nat) : bool :=
  ((c1 =? 225) && (c2 =? 154) && (c3 =? 128)
   || (c1 =? 226) && (c2 =? 128)
      && ((128 <=? c3) && (c3 <=? 138) || (c3 =? 168) || (c3 =? 169)
          || (c3 =? 175))
   || (c1 =? 226) && (c2 =? 129) && (c3 =? 159)
   || (c1 =? 227) && (c2 =? 128) && (c3 =? 128)
   || (c1 =? 239) && (c2 =? 187) && (c3 =? 191))%nat.

Fixpoint trimStart (l : list nat) : list nat :=
  match l with
  | [] => []
  | c1 :: r1 =>
      if ws1 c1 then trimStart r1
      else match r1 with
           | [] => l
           | c2 :: r2 =>
               if ws2 c1 c2 then trimStart r2
               else match r2 with
                    | [] => l
                    | c3 :: r3 => if ws3 c1 c2 c3 then trimStart r3 else l
                    end
           end
  end.

Definition is_digit (c : nat) : bool := ((48 <=? c) && (c <=? 57))%nat.

Fixpoint digits (l : list nat) : list nat :=
  match l with
  | c :: r => if is_digit c then c :: digits r else []
  | [] => []
  end.

Definition decimal (ds : list nat) : Z :=
  fold_left (fun acc c => (10 * acc + Z.of_nat (c - 48))%Z) ds 0%Z.

(** The Number nearest to a non-negative integer: exact up to 53 bits,
    beyond that rounded to 53 significant bits, ties to even, and infinite
    from 2^1024 on. *)
Definition toNumber (negative : bool) (n : Z) : number :=
  let sign := if negative then (-1)%Z else 1%Z in
  let bits := if (n =? 0)%Z then 0%Z else (Z.log2 n + 1)%Z in
  if (bits <=? 53)%Z then Finite (sign * n) 0
  else
    let shift := (bits - 53)%Z in
    let q := Z.shiftr n shift in
    let r := Z.land n (Z.ones shift) in
    let half := Z.shiftl 1 (shift - 1) in
    let up := (half <? r)%Z || ((r =? half)%Z && Z.odd q) in
    let rounded := Z.shiftl (if up then q + 1 else q)%Z shift in
    if (Z.shiftl 1 1024 <=? rounded)%Z then Infinity negative
    else Finite (sign * rounded) 0.

(** [parseInt(s, 10)]: leading white space is skipped, one sign is read,
    then the longest run of decimal digits; no digit gives NaN and whatever
    follows the digits is ignored.  (An engine may replace the digits after
    the twentieth by zeros; that choice is not modelled.) *)
Definition parseInt (s : string) : number :=
  let inputString := trimStart (codes s) in
  let '(negative, rest) :=
    match inputString with
    | 45%nat :: r => (true, r)
    | 43%nat :: r => (false, r)
    | _ => (false, inputString)
    end in
  match digits rest with
  | [] => NaN
  | ds => toNumber negative (decimal ds)
  end.

Definition isNaN (n : number) : bool :=
  match n with NaN => true | _ => false end.

(** [n > 0]. *)
Definition gt0 (n : number) : bool :=
  match n with
  | NaN => false
  | Infinity negative => negb negative
  | Finite m _ => (0 <? m)%Z
  end.

(** ** Errors *)

(** [ConfigurationError(message, context)] of classes/errors; the
    [originalError] entry of the context holds an error and is kept apart
    from the entries that hold values.  [SyntaxError] is the one of
    [JSON.parse]; [Error] stands for every other class (system errors of
    [fs] with their code, the validator's own errors). *)
Inductive JSError :=
| ConfigurationError (message : string) (context : gmap string Value)
                     (originalError : option JSError)
| SyntaxError (message : string)
| Error (name message : string).

Definition isConfigurationError (e : JSError) : bool :=
  match e with ConfigurationError _ _ _ => true | _ => false end.

Definition Result (A : Type) : Type := JSError + A.

Inductive Mode := FileMode | FinalMode.

(** ** What the code takes from other modules and from the platform *)

Inductive FileEntry :=
| Content (text : string)
| Failing (code : string).

Class Externals := {
  (** [validateConfig(DocumenterConfigSchema, data, mode)] of
      helpers/validation: the validated object, or the error it throws. *)
  validateConfig : Mode -> Value -> Result Obj;
  (** [new URL(s)] returns (true) or throws (false). *)
  URL_canParse : string -> bool;
  (** ToString of a value that is not a string. *)
  ToString_other : Value -> string;
  (** [getErrorMessage] of classes/errors. *)
  getErrorMessage : JSError -> string;
  (** [JSON.parse]. *)
  JSON_parse : string -> Result Value;
  (** [path.join]. *)
  path_join : list string -> string;
  (** [dotenv.config({ path })] ([None]: no argument) in a working
      directory, file system and environment: the environment it leaves,
      and the error if it throws. *)
  dotenv_config :
    option string -> string -> gmap string FileEntry -> gmap string string ->
    gmap string string * option JSError
}.

(** ** ConfigBuilder *)

Module ConfigBuilder.

(** The [defaults] literal of [withDefaults]. *)
Definition defaults : Obj :=
  <["provider" := VString "openai"]>
  (<["openai_model" := VString "gpt-4o-mini"]>
  (<["lmstudio_endpoint" := VString "http://localhost:1234/v1"]>
  (<["lmstudio_model" := VString "local-model"]>
  (<["max_conversation_history" := VNumber (Finite 10 0)]>
  (<["default_output_dir" := VString "./docs"]>
  (<["timeout" := VNumber (Finite 3600000 0)]> ∅)))))).

Definition withDefaults (config : Obj) : Obj := spread config defaults.

(** [if (process.env.NAME) { ... }]: the body runs on a set, non-empty
    variable. *)
Definition ifEnv (env : gmap string string) (name : string)
    (body : string -> Obj -> Obj) (envConfig : Obj) : Obj :=
  match env !! name with
  | Some v => if String.eqb v "" then envConfig else body v envConfig
  | None => envConfig
  end.

Definition setString (field : string) (v : string) (envConfig : Obj) : Obj :=
  <[field := VString v]> envConfig.

Definition setProvider (v : string) (envConfig : Obj) : Obj :=
  let provider := toLowerCase v in
  if String.eqb provider "openai" || String.eqb provider "lmstudio"
  then <["provider" := VString provider]> envConfig
  else envConfig.

Definition setPositive (field : string) (v : string) (envConfig : Obj) : Obj :=
  let value := parseInt v in
  if negb (isNaN value) && gt0 value
  then <[field := VNumber value]> envConfig
  else envConfig.

(** The local [envConfig] of [withEnvironment], statement by statement. *)
Definition envConfig (env : gmap string string) : Obj :=
  let c : Obj := ∅ in
  let c := ifEnv env "LLM_PROVIDER" setProvider c in
  let c := ifEnv env "OPENAI_API_KEY" (setString "openai_api_key") c in
  let c := ifEnv env "OPENAI_MODEL" (setString "openai_model") c in
  let c := ifEnv env "LMSTUDIO_ENDPOINT" (setString "lmstudio_endpoint") c in
  let c := ifEnv env "LMSTUDIO_MODEL" (setString "lmstudio_model") c in
  let c := ifEnv env "MAX_CONVERSATION_HISTORY"
                 (setPositive "max_conversation_history") c in
  let c := ifEnv env "DEFAULT_OUTPUT_DIR" (setString "default_output_dir") c in
  let c := ifEnv env "LLM_TIMEOUT" (setPositive "timeout") c in
  c.

Definition withEnvironment (env : gmap string string) (config : Obj) : Obj :=
  spread config (envConfig env).

Definition withFile (fileConfig : Value) (config : Obj) : Obj :=
  spread config (ownProperties fileConfig).

Definition getCurrentState (config : Obj) : Obj := spread ∅ config.

(** The environment variable that feeds each field. *)
Definition recognized : list (string * string) :=
  [ ("LLM_PROVIDER", "provider");
    ("OPENAI_API_KEY", "openai_api_key");
    ("OPENAI_MODEL", "openai_model");
    ("LMSTUDIO_ENDPOINT", "lmstudio_endpoint");
    ("LMSTUDIO_MODEL", "lmstudio_model");
    ("MAX_CONVERSATION_HISTORY", "max_conversation_history");
    ("DEFAULT_OUTPUT_DIR", "default_output_dir");
    ("LLM_TIMEOUT", "timeout") ].

(** The two variables read with [parseInt]. *)
Definition numeric : list (string * string) :=
  [ ("MAX_CONVERSATION_HISTORY", "max_conversation_history");
    ("LLM_TIMEOUT", "timeout") ].

(** A template literal's [${v}], and the string the [URL] constructor
    parses. *)
Definition ToString `{Externals} (v : Value) : string :=
  match v with
  | VString s => s
  | _ => ToString_other v
  end.

Definition apiKeyMessage : string :=
  "OpenAI API key is required when using OpenAI provider. " ++
  "Set OPENAI_API_KEY environment variable or add it to your config file.".

Definition invalidEndpoint `{Externals} (config : Obj) : JSError :=
  ConfigurationError
    ("Invalid LMStudio endpoint URL: " ++
     ToString (prop config "lmstudio_endpoint"))
    (<["provider" := prop config "provider"]>
     {[ "endpoint" := prop config "lmstudio_endpoint" ]})
    None.

Definition apiKeyRequired (config : Obj) : JSError :=
  ConfigurationError apiKeyMessage
    {[ "provider" := prop config "provider" ]} None.

(** [None] when the method returns, [Some e] when it throws [e]. *)
Definition validateProviderRequirements `{Externals} (config : Obj)
    : option JSError :=
  if strictEqString (prop config "provider") "openai"
     && negb (truthy (prop config "openai_api_key"))
  then Some (apiKeyRequired config)
  else if strictEqString (prop config "provider") "lmstudio"
  then
    if truthy (prop config "lmstudio_endpoint")
    then
      if URL_canParse (ToString (prop config "lmstudio_endpoint"))
      then None
      else Some (invalidEndpoint config)
    else None
  else None.

Definition build `{Externals} (config : Obj) : Result Obj :=
  if negb (truthy (prop config "provider"))
  then inl (ConfigurationError "Provider must be specified" ∅ None)
  else
    match validateConfig FinalMode (VObject config) with
    | inl e => inl e
    | inr validatedConfig =>
        match validateProviderRequirements validatedConfig with
        | Some e => inl e
        | None => inr validatedConfig
        end
    end.

End ConfigBuilder.

(** ** The process: object store, environment, file system *)

Abbreviation loc := positive.

Inductive IOEvent :=
| DotenvConfig (path : option string)
| ReadFile (path : string).

(** [config] is the field [this.config] of the [ConfigManager]: null, or a
    reference to the cached object in [heap].  [files] maps a path to what
    [fs.readFile] finds there: a text, or a failure other than absence
    (EACCES, EISDIR, ...); a path that is no key does not exist (ENOENT). *)
Record State := mkState {
  config : option loc;
  heap : gmap loc Obj;
  process_env : gmap string string;
  files : gmap string FileEntry;
  cwd : string;
  io_log : list IOEvent
}.

Definition M (A : Type) : Type := State -> Result A * State.

Definition ret {A} (a : A) : M A := fun s => (inr a, s).

Definition throw {A} (e : JSError) : M A := fun s => (inl e, s).

Definition bind {A B} (m : M A) (k : A -> M B) : M B :=
  fun s =>
    match m s with
    | (inr a, s') => k a s'
    | (inl e, s') => (inl e, s')
    end.

(** [try { m } catch (error) { handler error }]: the handler runs in the
    state the throw left behind. *)
Definition tryCatch {A} (m : M A) (handler : JSError -> M A) : M A :=
  fun s =>
    match m s with
    | (inr a, s') => (inr a, s')
    | (inl e, s') => handler e s'
    end.

Definition lift {A} (r : Result A) : M A := fun s => (r, s).

Definition gets {A} (f : State -> A) : M A := fun s => (inr (f s), s).

Notation "x <- m ;; k" := (bind m (fun x => k))
  (at level 100, m at next level, right associativity,
   format "'[v' x  <-  m  ;;  '/' k ']'").

Definition log (ev : IOEvent) (s : State) : State :=
  mkState (config s) (heap s) (process_env s) (files s) (cwd s)
          (io_log s ++ [ev]).

Definition setEnv (env : gmap string string) (s : State) : State :=
  mkState (config s) (heap s) env (files s) (cwd s) (io_log s).

Definition setHeap (h : gmap loc Obj) (s : State) : State :=
  mkState (config s) h (process_env s) (files s) (cwd s) (io_log s).

(** [this.config = c]. *)
Definition setConfig (c : option loc) : M unit :=
  fun s =>
    (inr tt,
     mkState c (heap s) (process_env s) (files s) (cwd s) (io_log s)).

(** A new object gets a reference no live object has. *)
Definition alloc (o : Obj) : M loc :=
  fun s =>
    let l := fresh (dom (heap s)) in
    (inr l, setHeap (<[l := o]> (heap s)) s).

(** Reading through a reference.  A reference held by the program always
    denotes a live object; the empty object is what the total lookup gives
    elsewhere. *)
Definition deref (l : loc) : M Obj :=
  fun s => (inr (default ∅ (heap s !! l)), s).

(** [l.k = v]. *)
Definition setProp (l : loc) (k : string) (v : Value) : M unit :=
  fun s => (inr tt, setHeap (alter (insert k v) l (heap s)) s).

(** [await fs.readFile(path, 'utf-8')]. *)
Definition readFile (path : string) : M string :=
  fun s =>
    let s' := log (ReadFile path) s in
    match files s !! path with
    | Some (Content text) => (inr text, s')
    | Some (Failing code) => (inl (Error code path), s')
    | None => (inl (Error "ENOENT" path), s')
    end.

(** ** ConfigManager *)

Module ConfigManager.

Import ConfigBuilder.

(** [a || b]. *)
Definition or_else (a b : Value) : Value := if truthy a then a else b.

(** The object [getConfigSummary] returns for a configuration. *)
Definition summaryOf (config : Obj) (workingDir : string) : Obj :=
  let summary : Obj :=
    <["provider" := or_else (prop config "provider") (VString "openai")]>
    (<["model" :=
         if strictEqString (prop config "provider") "lmstudio"
         then or_else (prop config "lmstudio_model") (VString "local-model")
         else or_else (prop config "openai_model") (VString "gpt-4o-mini")]>
    (<["workingDir" := VString workingDir]> ∅)) in
  if strictEqString (prop config "provider") "lmstudio"
     && truthy (prop config "lmstudio_endpoint")
  then spread summary {[ "endpoint" := prop config "lmstudio_endpoint" ]}
  else summary.

(** [sanitizeConfigForLogging]: copy, then overwrite the key of the copy. *)
Definition sanitizeConfigForLogging (config : loc) : M loc :=
  c <- deref config ;;
  sanitized <- alloc (spread ∅ c) ;;
  c' <- deref sanitized ;;
  _ <- (if truthy (prop c' "openai_api_key")
        then setProp sanitized "openai_api_key" (VString "[REDACTED]")
        else ret tt) ;;
  ret sanitized.

Definition reset : M unit := setConfig None.

Definition dotenv `{Externals} (path : option string) : M unit :=
  fun s =>
    let s1 := log (DotenvConfig path) s in
    match dotenv_config path (cwd s) (files s) (process_env s) with
    | (env', None) => (inr tt, setEnv env' s1)
    | (env', Some e) => (inl e, setEnv env' s1)
    end.

(** [process.env.HOME || process.env.USERPROFILE || '']. *)
Definition homeDir (env : gmap string string) : string :=
  match env !! "HOME" with
  | Some h => if String.eqb h "" then default "" (env !! "USERPROFILE")
              else h
  | None => default "" (env !! "USERPROFILE")
  end.

Definition loadEnvConfig `{Externals} : M unit :=
  cwd <- gets cwd ;;
  let localEnvPath := path_join [cwd; ".env"] in
  tryCatch (dotenv (Some localEnvPath))
    (fun _ =>
       env <- gets process_env ;;
       let globalEnvPath := path_join [homeDir env; ".documenter"; ".env"] in
       tryCatch (dotenv (Some globalEnvPath))
         (fun _ => dotenv None)).

Definition invalidConfiguration `{Externals} (configPath : string)
    (validationError : JSError) : JSError :=
  ConfigurationError
    ("Invalid configuration in " ++ configPath ++ ": " ++
     getErrorMessage validationError)
    {[ "configPath" := VString configPath ]}
    (Some validationError).

Definition invalidJSON (configPath : string) (error : JSError)
    (message : string) : JSError :=
  ConfigurationError
    ("Invalid JSON in configuration file " ++ configPath ++ ": " ++ message)
    {[ "configPath" := VString configPath ]}
    (Some error).

(** One turn of the loop of [loadFromFiles]: [Some v] returns [v] from
    the function, [None] goes on to the next path. *)
Definition tryCandidate `{Externals} (configPath : string) : M (option Value) :=
  tryCatch
    (configFile <- readFile configPath ;;
     fileConfig <- lift (JSON_parse configFile) ;;
     tryCatch
       (_ <- lift (validateConfig FileMode fileConfig) ;;
        ret (Some fileConfig))
       (fun validationError =>
          throw (invalidConfiguration configPath validationError)))
    (fun error =>
       if isConfigurationError error then throw error
       else match error with
            | SyntaxError message =>
                throw (invalidJSON configPath error message)
            | _ => ret None
            end).

Fixpoint searchPaths `{Externals} (configPaths : list string) : M Value :=
  match configPaths with
  | [] => ret (VObject ∅)
  | configPath :: rest =>
      found <- tryCandidate configPath ;;
      match found with
      | Some fileConfig => ret fileConfig
      | None => searchPaths rest
      end
  end.

Definition configPaths `{Externals} (cwd : string) : list string :=
  [ path_join [cwd; ".documenter.json"];
    path_join [cwd; "documenter.config.json"] ].

Definition loadFromFiles `{Externals} : M Value :=
  cwd <- gets cwd ;;
  searchPaths (configPaths cwd).

(** The accumulator that [loadConfig] hands to [build]. *)
Definition accumulate (env : gmap string string) (fileConfig : Value) : Obj :=
  withFile fileConfig (withEnvironment env (withDefaults ∅)).

Definition failedToLoad `{Externals} (error : JSError) : JSError :=
  ConfigurationError
    ("Failed to load configuration: " ++ getErrorMessage error) ∅
    (Some error).

Definition loadConfig `{Externals} : M loc :=
  tryCatch
    (_ <- loadEnvConfig ;;
     fileConfig <- loadFromFiles ;;
     env <- gets process_env ;;
     validated <- lift (build (accumulate env fileConfig)) ;;
     config <- alloc validated ;;
     _ <- setConfig (Some config) ;;
     ret config)
    (fun error =>
       if isConfigurationError error then throw error
       else throw (failedToLoad error)).

Definition getConfig `{Externals} : M loc :=
  this_config <- gets config ;;
  match this_config with
  | None => loadConfig
  | Some c => ret c
  end.

Definition isValidForProvider `{Externals} (provider : string) : M bool :=
  tryCatch
    (c <- getConfig ;;
     config <- deref c ;;
     if negb (strictEqString (prop config "provider") provider)
     then ret false
     else if String.eqb provider "openai"
     then ret (truthy (prop config "openai_api_key"))
     else if String.eqb provider "lmstudio"
     then ret (truthy (prop config "lmstudio_endpoint")
               && truthy (prop config "lmstudio_model"))
     else ret false)
    (fun _ => ret false).

Definition getConfigSummary `{Externals} : M Obj :=
  c <- getConfig ;;
  config <- deref c ;;
  workingDir <- gets cwd ;;
  ret (summaryOf config workingDir).

End ConfigManager.

(** ** The schema validator as the specification describes it *)

Module Schema.

Import ConfigBuilder.

Inductive Shape := ProviderId | Text | PositiveInteger.

(** The attributes of a Configuration with the shape of each one. *)
Definition attributes : list (string * Shape) :=
  [ ("provider", ProviderId);
    ("openai_api_key", Text);
    ("openai_model", Text);
    ("lmstudio_endpoint", Text);
    ("lmstudio_model", Text);
    ("max_conversation_history", PositiveInteger);
    ("default_output_dir", Text);
    ("timeout", PositiveInteger) ].

Definition isPositiveInteger (n : number) : bool :=
  match n with
  | Finite m e =>
      (0 <? m)%Z
      && ((0 <=? e)%Z || (Z.land m (Z.ones (- e)) =? 0)%Z)
  | _ => false
  end.

Definition hasShape (sh : Shape) (v : Value) : bool :=
  match sh, v with
  | ProviderId, VString s => String.eqb s "openai" || String.eqb s "lmstudio"
  | Text, VString _ => true
  | PositiveInteger, VNumber n => isPositiveInteger n
  | _, _ => false
  end.

(** The fields a candidate violates: a present attribute of the wrong
    shape, a missing provider in final mode, a key that is no attribute. *)
Definition violations (mode : Mode) (o : Obj) : list string :=
  omap (fun '(k, sh) =>
          match o !! k with
          | Some v => if hasShape sh v then None else Some k
          | None =>
              match mode with
              | FinalMode =>
                  if String.eqb k "provider" then Some k else None
              | FileMode => None
              end
          end) attributes
  ++ filter (fun k => k ∉ attributes.*1) (elements (dom o)).

(** Modelled from the spec: the schema validator [validateConfig] of
    helpers/validation with [DocumenterConfigSchema], which are not among
    the sources.  The candidate must be an object; file mode tolerates
    missing attributes; final mode requires the provider and returns the
    configuration with the built-in default in every defaulted attribute
    the candidate leaves out; a key that is no attribute is rejected; the
    error lists every violated field. *)
Definition validateConfig (mode : Mode) (data : Value) : Result Obj :=
  match data with
  | VObject o =>
      match violations mode o with
      | [] =>
          inr (match mode with
               | FinalMode => o ∪ delete "provider" defaults
               | FileMode => o
               end)
      | fields => inl (Error "ValidationError" (String.concat ", " fields))
      end
  | _ => inl (Error "ValidationError" "expected an object")
  end.

End Schema.

(** ** Stand-ins for the platform, used by the examples *)

Module Platform.

(** A URL parsed without a base needs a scheme: a letter, then letters,
    digits, [+], [-] or [.], then a colon.  The [URL] constructor rejects
    every string that has none (the empty string among them), and some more
    that this test accepts. *)
Definition scheme_char (c : nat) : bool :=
  ((65 <=? c) && (c <=? 90) || (97 <=? c) && (c <=? 122)
   || is_digit c || (c =? 43) || (c =? 45) || (c =? 46))%nat.

Definition alpha (c : nat) : bool :=
  ((65 <=? c) && (c <=? 90) || (97 <=? c) && (c <=? 122))%nat.

Fixpoint scheme_rest (l : list nat) : bool :=
  match l with
  | c :: r => (c =? 58)%nat || (scheme_char c && scheme_rest r)
  | [] => false
  end.

Definition URL_canParse (s : string) : bool :=
  match codes s with
  | c :: r => alpha c && scheme_rest r
  | [] => false
  end.

(** ToString on the primitives that need no number formatting. *)
Definition ToString_other (v : Value) : string :=
  match v with
  | VUndefined => "undefined"
  | VNull => "null"
  | VBool true => "true"
  | VBool false => "false"
  | VObject _ => "[object Object]"
  | _ => ""
  end.

Definition getErrorMessage (e : JSError) : string :=
  match e with
  | ConfigurationError message _ _ => message
  | SyntaxError message => message
  | Error _ message => message
  end.

Definition path_join (parts : list string) : string := String.concat "/" parts.

(** No environment file anywhere: [dotenv.config] changes nothing. *)
Definition dotenv_config (path : option string) (cwd : string)
    (fs : gmap string FileEntry) (env : gmap string string)
    : gmap string string * option JSError := (env, None).

(** [JSON.parse] on the texts the examples put in files; any other text
    is reported as a syntax error. *)
Definition quoted (s : string) : string :=
  String (ascii_of_nat 34) (s ++ String (ascii_of_nat 34) EmptyString).

Definition endpointText (endpoint : string) : string :=
  "{" ++ quoted "provider" ++ ":" ++ quoted "lmstudio" ++ "," ++
  quoted "lmstudio_endpoint" ++ ":" ++ quoted endpoint ++ "}".

Definition endpointValue (endpoint : string) : Value :=
  VObject (<["provider" := VString "lmstudio"]>
           {[ "lmstudio_endpoint" := VString endpoint ]}).

Definition JSON_parse (text : string) : Result Value :=
  if String.eqb text "{}" then inr (VObject ∅)
  else if String.eqb text (endpointText "") then inr (endpointValue "")
  else if String.eqb text (endpointText "not a url")
  then inr (endpointValue "not a url")
  else if String.eqb text (endpointText "http://127.0.0.1:8080/v1")
  then inr (endpointValue "http://127.0.0.1:8080/v1")
  else inl (SyntaxError "Unexpected token").

(** The specification's validator on the stand-in platform. *)
Definition externals : Externals :=
  Build_Externals Schema.validateConfig URL_canParse ToString_other
                  getErrorMessage JSON_parse path_join dotenv_config.

(** A process started in [/proj] with nothing loaded. *)
Definition start (env : gmap string string) (fs : gmap string FileEntry)
    : State :=
  mkState None ∅ env fs "/proj" [].

End Platform.

(** ** Notions the properties are stated with *)

Import ConfigBuilder ConfigManager.

(** What a set, non-empty variable writes into its field: the table of
    recognized variables read off the bodies of [withEnvironment]. *)
Definition envValue (field v : string) : option Value :=
  if String.eqb field "provider" then
    let provider := toLowerCase v in
    if String.eqb provider "openai" || String.eqb provider "lmstudio"
    then Some (VString provider) else None
  else if String.eqb field "max_conversation_history"
          || String.eqb field "timeout" then
    let value := parseInt v in
    if negb (isNaN value) && gt0 value then Some (VNumber value) else None
  else Some (VString v).

Definition envField (env : gmap string string) (var field : string)
    : option Value :=
  match env !! var with
  | Some v => if String.eqb v "" then None else envValue field v
  | None => None
  end.

(** The value of a field under three layers, highest precedence first. *)
Definition layered (fileLayer envLayer defaultLayer : Obj) (k : string)
    : option Value :=
  match fileLayer !! k with
  | Some v => Some v
  | None =>
      match envLayer !! k with
      | Some v => Some v
      | None => defaultLayer !! k
      end
  end.

(** Final-mode validation returns the attributes of its candidate, with
    the built-in default where the candidate has none. *)
Definition keeps_attributes `{Externals} : Prop :=
  ∀ o o' k,
    validateConfig FinalMode (VObject o) = inr o' →
    k ∈ recognized.*2 →
    o' !! k = (o ∪ defaults) !! k.

(** Final-mode validation accepts no candidate without a provider. *)
Definition requires_provider `{Externals} : Prop :=
  ∀ o o',
    validateConfig FinalMode (VObject o) = inr o' →
    truthy (prop o "provider") = true.

(** Two states with the same manager field, store, files and directory. *)
Definition same_but_env_and_log (s s' : State) : Prop :=
  config s' = config s ∧ heap s' = heap s ∧ files s' = files s ∧
  cwd s' = cwd s.

(** The same, and the same environment: only the log of I/O may differ. *)
Definition same_but_log (s s' : State) : Prop :=
  same_but_env_and_log s s' ∧ process_env s' = process_env s.

(** The state a successful load leaves: the validated object under a
    fresh reference, and that reference in the manager. *)
Definition loaded (s : State) (validated : Obj) : State :=
  let l := fresh (dom (heap s)) in
  mkState (Some l) (<[l := validated]> (heap s)) (process_env s) (files s)
          (cwd s) (io_log s).

(** A text that is a positive integer in decimal: digits only, not all
    zero. *)
Definition isPositiveIntegerText (v : string) : bool :=
  match codes v with
  | [] => false
  | cs => forallb is_digit cs && (0 <? decimal cs)%Z
  end.

(** Every text that is not a positive integer leaves its field alone. *)
Definition malformed_numbers_ignored : Prop :=
  ∀ env var field (acc : Obj) v,
    (var, field) ∈ numeric →
    env !! var = Some v →
    isPositiveIntegerText v = false →
    withEnvironment env acc !! field = acc !! field.

(** Every configuration that [build] returns for 'lmstudio' has an
    endpoint that parses as a URL. *)
Definition lmstudio_endpoint_always_url `{Externals} : Prop :=
  ∀ config validated,
    build config = inr validated →
    strictEqString (prop validated "provider") "lmstudio" = true →
    ∃ s, validated !! "lmstudio_endpoint" = Some (VString s) ∧
         URL_canParse s = true.

(** [path] cannot be read: it is missing, or reading it fails. *)
Definition unreadable (s : State) (path : string) : Prop :=
  ∀ text, files s !! path ≠ Some (Content text).

(** The manager field replaced, everything else kept. *)
Definition withCache (c : option loc) (s : State) : State :=
  mkState c (heap s) (process_env s) (files s) (cwd s) (io_log s).

(** A configuration with its API key redacted when it has one. *)
Definition redacted (c : Obj) : Obj :=
  if truthy (prop c "openai_api_key")
  then <["openai_api_key" := VString "[REDACTED]"]> c
  else c.

(** The reference the manager holds denotes a live object. *)
Definition cache_live (s : State) : Prop :=
  ∀ l, config s = Some l → is_Some (heap s !! l).

(** An operation that neither reads nor writes the manager field. *)
Definition cache_blind {A} (m : M A) : Prop :=
  ∀ c s, m (withCache c s) = ((m s).1, withCache c (m s).2).

(** The error [loadConfig] throws for an error caught in its body. *)
Definition surfaced `{Externals} (e : JSError) : JSError :=
  if isConfigurationError e then e
  else ConfigurationError
         ("Failed to load configuration: " ++ getErrorMessage e) ∅ (Some e).

(** A state with another environment and more events in the log. *)
Definition after (s : State) (env : gmap string string)
    (events : list IOEvent) : State :=
  mkState (config s) (heap s) env (files s) (cwd s) (io_log s ++ events).

(** A rest of a text that does not go on with a digit. *)
Definition no_leading_digit (rest : list nat) : bool :=
  match rest with
  | [] => true
  | c :: _ => negb (is_digit c)
  end.

(** ** A [dotenv.config] that throws *)

Module StrictDotenv.

(** A stand-in that throws when the file it is asked for (the local
    [.env] of the working directory when no path is given) cannot be
    read, and otherwise records the file in the variable DOTENV_FILE. *)
Definition dotenv_config (path : option string) (cwd : string)
    (fs : gmap string FileEntry) (env : gmap string string)
    : gmap string string * option JSError :=
  let file := default (Platform.path_join [cwd; ".env"]) path in
  match fs !! file with
  | Some (Content _) => (<["DOTENV_FILE" := file]> env, None)
  | _ => (env, Some (Error "ENOENT" file))
  end.

Definition externals : Externals :=
  Build_Externals Schema.validateConfig Platform.URL_canParse
                  Platform.ToString_other Platform.getErrorMessage
                  Platform.JSON_parse Platform.path_join dotenv_config.

End StrictDotenv.

(** * Properties *)

(** ** The environment layer, field by field *)

Lemma ifEnv_frame env n body (c : Obj) k :
  (∀ v c', body v c' !! k = c' !! k) → ifEnv env n body c !! k = c !! k.
Proof.
  intros Hbody. unfold ifEnv.
  destruct (env !! n) as [v|]; [|done].
  destruct (String.eqb v ""); [done|apply Hbody].
Qed.

Lemma ifEnv_here env n body (c : Obj) k :
  ifEnv env n body c !! k =
  match env !! n with
  | Some v => if String.eqb v "" then c !! k else body v c !! k
  | None => c !! k
  end.
Proof.
  unfold ifEnv. destruct (env !! n) as [v|]; [|done].
  by destruct (String.eqb v "").
Qed.

Lemma setString_frame f k v (c : Obj) :
  f ≠ k → setString f v c !! k = c !! k.
Proof. intros. unfold setString. by rewrite lookup_insert_ne. Qed.

Lemma setPositive_frame f k v (c : Obj) :
  f ≠ k → setPositive f v c !! k = c !! k.
Proof.
  intros. unfold setPositive.
  destruct (negb (isNaN (parseInt v)) && gt0 (parseInt v)); [|done].
  by rewrite lookup_insert_ne.
Qed.

Lemma setProvider_frame k v (c : Obj) :
  "provider" ≠ k → setProvider v c !! k = c !! k.
Proof.
  intros. unfold setProvider.
  destruct (String.eqb (toLowerCase v) "openai"
            || String.eqb (toLowerCase v) "lmstudio"); [|done].
  by rewrite lookup_insert_ne.
Qed.

(** An equation between closed terms, decided by evaluation. *)
Ltac by_vm :=
  match goal with
  | |- ?l = ?r => vm_cast_no_check (eq_refl r)
  end.

(** A conjunction of such equations. *)
Ltac all_by_vm :=
  repeat match goal with |- _ ∧ _ => split end; by_vm.

(** Membership in a list that is written out. *)
Ltac in_list :=
  unfold recognized, numeric;
  repeat first [ apply list_elem_of_here | apply list_elem_of_further ].

Ltac frame_body :=
  intros;
  first [ apply setString_frame | apply setPositive_frame
        | apply setProvider_frame ];
  discriminate.

Ltac skip_layers := repeat (rewrite ifEnv_frame by frame_body).

Ltac at_layer :=
  unfold envConfig, envField; cbv zeta;
  skip_layers; rewrite ifEnv_here; skip_layers; rewrite lookup_empty;
  match goal with
  | |- context [?env !! ?n] => destruct (env !! n); [|done]
  end;
  match goal with
  | |- context [String.eqb ?v ""] => destruct (String.eqb v ""); [done|]
  end;
  unfold setString, setPositive, setProvider, envValue; simpl;
  repeat match goal with
         | |- context [if ?b then _ else _] => destruct b
         end;
  rewrite ?lookup_insert_eq; skip_layers; rewrite ?lookup_empty; done.

(** Each recognized field of [envConfig] is decided by its own variable. *)
Lemma envConfig_lookup env var field :
  (var, field) ∈ recognized →
  envConfig env !! field = envField env var field.
Proof.
  unfold recognized. rewrite !elem_of_cons, elem_of_nil.
  intros H. repeat (destruct H as [H|H]); try done; inversion H; subst;
    clear H; at_layer.
Qed.

(** [envConfig] has no other field. *)
Lemma envConfig_fields env k v :
  envConfig env !! k = Some v → k ∈ recognized.*2.
Proof.
  intros H.
  destruct (decide (k ∈ recognized.*2)) as [|Hk]; [done|exfalso].
  assert (envConfig env !! k = None) as E; [|congruence].
  clear H. unfold recognized in Hk. simpl in Hk.
  rewrite !not_elem_of_cons in Hk. destruct_and!.
  unfold envConfig; cbv zeta.
  repeat (rewrite ifEnv_frame;
          [|intros; first [ apply setString_frame | apply setPositive_frame
                          | apply setProvider_frame ]; congruence]).
  apply lookup_empty.
Qed.

Lemma recognized_field_var k :
  k ∈ recognized.*2 → ∃ var, (var, k) ∈ recognized.
Proof.
  intros H. apply list_elem_of_fmap in H as ([var k'] & -> & H).
  by exists var.
Qed.

(** ** What the steps of a load do to the state *)

Lemma same_but_env_and_log_refl s : same_but_env_and_log s s.
Proof. by repeat split. Qed.

Lemma same_but_env_and_log_trans s1 s2 s3 :
  same_but_env_and_log s1 s2 → same_but_env_and_log s2 s3 →
  same_but_env_and_log s1 s3.
Proof.
  unfold same_but_env_and_log. intros. destruct_and!.
  by repeat split; etrans.
Qed.

Lemma same_but_log_refl s : same_but_log s s.
Proof. by repeat split. Qed.

Lemma same_but_log_trans s1 s2 s3 :
  same_but_log s1 s2 → same_but_log s2 s3 → same_but_log s1 s3.
Proof.
  intros [H1 E1] [H2 E2]. split.
  - by eapply same_but_env_and_log_trans.
  - by etrans.
Qed.

Lemma log_same_but_log ev s : same_but_log s (log ev s).
Proof. by repeat split. Qed.

Ltac monad_unfold :=
  unfold bind, tryCatch, ret, throw, lift, gets in *.

Section Steps.

Context {ext : Externals}.

Lemma dotenv_effect path s r s' :
  dotenv path s = (r, s') → same_but_env_and_log s s'.
Proof.
  unfold dotenv. destruct (dotenv_config _ _ _ _) as [env' [e|]];
    intros [= <- <-]; by repeat split.
Qed.

Lemma loadEnvConfig_effect s r s' :
  loadEnvConfig s = (r, s') → same_but_env_and_log s s'.
Proof.
  unfold loadEnvConfig. monad_unfold.
  destruct (dotenv (Some (path_join [cwd s; ".env"])) s)
    as [[e1|[]] s1] eqn:E1; apply dotenv_effect in E1.
  2: { by intros [= <- <-]. }
  destruct (dotenv (Some _) s1) as [[e2|[]] s2] eqn:E2;
    apply dotenv_effect in E2.
  2: { intros [= <- <-]. by eapply same_but_env_and_log_trans. }
  intros E3. apply dotenv_effect in E3.
  eapply same_but_env_and_log_trans; [|exact E3].
  by eapply same_but_env_and_log_trans.
Qed.

Lemma readFile_effect path s r s' :
  readFile path s = (r, s') → s' = log (ReadFile path) s.
Proof.
  unfold readFile. destruct (files s !! path) as [[text|code]|];
    by intros [= <- <-].
Qed.

(** One candidate costs one read and touches nothing else. *)
Lemma tryCandidate_effect path s r s' :
  tryCandidate path s = (r, s') → s' = log (ReadFile path) s.
Proof.
  unfold tryCandidate. monad_unfold.
  destruct (readFile path s) as [[e|text] s1] eqn:E;
    apply readFile_effect in E; subst s1.
  - destruct (isConfigurationError e); [by intros [= <- <-]|].
    destruct e; by intros [= <- <-].
  - destruct (JSON_parse text) as [e|fileConfig].
    + destruct (isConfigurationError e); [by intros [= <- <-]|].
      destruct e; by intros [= <- <-].
    + destruct (validateConfig FileMode fileConfig) as [e|o]; simpl;
        by intros [= <- <-].
Qed.

Lemma searchPaths_effect paths s r s' :
  searchPaths paths s = (r, s') → same_but_log s s'.
Proof.
  revert s. induction paths as [|p rest IH]; intros s; simpl.
  - intros [= <- <-]. apply same_but_log_refl.
  - unfold bind at 1.
    destruct (tryCandidate p s) as [[e|[v|]] s1] eqn:E;
      apply tryCandidate_effect in E; subst s1.
    + intros [= <- <-]. apply log_same_but_log.
    + intros [= <- <-]. apply log_same_but_log.
    + intros H. apply IH in H.
      eapply same_but_log_trans; [apply log_same_but_log|exact H].
Qed.

Lemma loadFromFiles_effect s r s' :
  loadFromFiles s = (r, s') → same_but_log s s'.
Proof. unfold loadFromFiles. monad_unfold. apply searchPaths_effect. Qed.

(** *** The two outcomes of [loadConfig] *)

Lemma loadConfig_returns s l s' :
  loadConfig s = (inr l, s') →
  ∃ s1 s2 fileConfig validated,
    loadEnvConfig s = (inr tt, s1) ∧
    loadFromFiles s1 = (inr fileConfig, s2) ∧
    build (accumulate (process_env s1) fileConfig) = inr validated ∧
    l = fresh (dom (heap s2)) ∧ s' = loaded s2 validated.
Proof.
  unfold loadConfig. monad_unfold.
  destruct (loadEnvConfig s) as [[e|[]] s1] eqn:E1.
  { destruct (isConfigurationError e); discriminate. }
  destruct (loadFromFiles s1) as [[e|fileConfig] s2] eqn:E2.
  { destruct (isConfigurationError e); discriminate. }
  pose proof (loadFromFiles_effect _ _ _ E2) as [_ Henv].
  rewrite Henv.
  destruct (build _) as [e|validated] eqn:E3.
  { destruct (isConfigurationError e); discriminate. }
  unfold alloc, setConfig; simpl. intros [= <- <-].
  by exists s1, s2, fileConfig, validated.
Qed.

Lemma loadConfig_throws s e s' :
  loadConfig s = (inl e, s') →
  isConfigurationError e = true ∧ same_but_env_and_log s s'.
Proof.
  unfold loadConfig. monad_unfold.
  assert (∀ e0 s0 , same_but_env_and_log s s0 →
    (if isConfigurationError e0 then λ s, (inl e0, s)
     else λ s, (inl (failedToLoad e0), s)) s0
      = (inl e : Result loc, s') →
    isConfigurationError e = true ∧ same_but_env_and_log s s') as Hcatch.
  { intros e0 s0 Hs. destruct (isConfigurationError e0) eqn:Ee;
      intros [= <- <-]; by split. }
  destruct (loadEnvConfig s) as [[e1|[]] s1] eqn:E1;
    apply loadEnvConfig_effect in E1.
  { by apply Hcatch. }
  destruct (loadFromFiles s1) as [[e2|fileConfig] s2] eqn:E2;
    apply loadFromFiles_effect in E2; destruct E2 as [E2 _].
  { apply Hcatch. by eapply same_but_env_and_log_trans. }
  destruct (build _) as [e3|validated] eqn:E3.
  { apply Hcatch. by eapply same_but_env_and_log_trans. }
  unfold alloc, setConfig; simpl. discriminate.
Qed.

End Steps.

(** ** Layers and the validator *)

Lemma accumulate_lookup env fileConfig k :
  accumulate env fileConfig !! k =
  layered (ownProperties fileConfig) (envConfig env) defaults k.
Proof.
  unfold accumulate, withFile, withEnvironment, withDefaults, spread, layered.
  rewrite !lookup_union, lookup_empty.
  destruct (ownProperties fileConfig !! k), (envConfig env !! k),
    (defaults !! k); done.
Qed.

Lemma build_returns `{Externals} config v :
  build config = inr v →
  truthy (prop config "provider") = true ∧
  validateConfig FinalMode (VObject config) = inr v ∧
  validateProviderRequirements v = None.
Proof.
  unfold build. destruct (truthy (prop config "provider")); [|done]. simpl.
  destruct (validateConfig FinalMode (VObject config)) as [e|v']; [done|].
  destruct (validateProviderRequirements v') eqn:E; [done|].
  by intros [= <-].
Qed.

Lemma schema_no_violation_provider o :
  Schema.violations FinalMode o = [] → ∃ s, o !! "provider" = Some (VString s)
    ∧ (String.eqb s "openai" || String.eqb s "lmstudio") = true.
Proof.
  unfold Schema.violations. intros H. apply app_eq_nil in H as [H _].
  simpl in H. destruct (o !! "provider") as [v|]; [|done].
  destruct v; simpl in H; try done.
  destruct (String.eqb s "openai" || String.eqb s "lmstudio") eqn:E; [|done].
  by exists s.
Qed.

Lemma schema_final o o' :
  Schema.validateConfig FinalMode (VObject o) = inr o' →
  Schema.violations FinalMode o = [] ∧ o' = o ∪ delete "provider" defaults.
Proof.
  unfold Schema.validateConfig.
  destruct (Schema.violations FinalMode o); [|done]. by intros [= <-].
Qed.

Lemma schema_keeps_attributes : @keeps_attributes Platform.externals.
Proof.
  intros o o' k H _. apply schema_final in H as [Hv ->].
  apply schema_no_violation_provider in Hv as (s & Hs & _).
  rewrite !lookup_union.
  destruct (decide (k = "provider")) as [->|Hk].
  - by rewrite Hs.
  - by rewrite lookup_delete_ne.
Qed.

Lemma schema_requires_provider : @requires_provider Platform.externals.
Proof.
  intros o o' H. apply schema_final in H as [Hv _].
  apply schema_no_violation_provider in Hv as (s & Hs & Hok).
  unfold prop. rewrite Hs. simpl.
  destruct s; [done|]. done.
Qed.

(** ** Precedence of the layers *)

(** C1.  The accumulator that reaches [build] holds, for every key, the
    value of the highest layer that has the key (file, then environment,
    then defaults), taken whole.  When final-mode validation returns the
    attributes it is given, the configuration that [build] returns holds
    that value for every recognized field, and the built-in default for a
    field that neither the file nor the field's environment variable
    provides; [loadConfig] returns and caches exactly what [build]
    returns on the loaded environment and file. *)
Theorem precedence_of_layers `{Externals} (Hkeep : keeps_attributes) :
  (∀ env fileConfig k,
     accumulate env fileConfig !! k =
     layered (ownProperties fileConfig) (envConfig env) defaults k) ∧
  (∀ env fileConfig final var field,
     build (accumulate env fileConfig) = inr final →
     (var, field) ∈ recognized →
     final !! field =
       layered (ownProperties fileConfig) (envConfig env) defaults field ∧
     envConfig env !! field = envField env var field ∧
     (ownProperties fileConfig !! field = None → env !! var = None →
      final !! field = defaults !! field)) ∧
  (∀ s l s',
     loadConfig s = (inr l, s') →
     ∃ s1 s2 fileConfig final,
       loadEnvConfig s = (inr tt, s1) ∧
       loadFromFiles s1 = (inr fileConfig, s2) ∧
       build (accumulate (process_env s1) fileConfig) = inr final ∧
       config s' = Some l ∧ heap s' !! l = Some final).
Proof.
  split; [apply accumulate_lookup|]. split.
  - intros env fileConfig final var field Hb Hin.
    apply build_returns in Hb as (_ & Hv & _).
    assert (final !! field =
            layered (ownProperties fileConfig) (envConfig env) defaults field)
      as Hfinal.
    { rewrite (Hkeep _ _ field Hv).
      2: { apply list_elem_of_fmap. by exists (var, field). }
      rewrite lookup_union, accumulate_lookup. unfold layered.
      destruct (ownProperties fileConfig !! field), (envConfig env !! field),
        (defaults !! field); done. }
    split; [done|]. split; [by apply envConfig_lookup|].
    intros Hfile Henv. rewrite Hfinal. unfold layered.
    rewrite Hfile, (envConfig_lookup _ var) by done.
    unfold envField. by rewrite Henv.
  - intros s l s' Hload.
    apply loadConfig_returns in Hload
      as (s1 & s2 & fileConfig & final & H1 & H2 & H3 & -> & ->).
    exists s1, s2, fileConfig, final. repeat split; try done.
    simpl. apply lookup_insert_eq.
Qed.

Lemma precedence_of_layers_witness :
  let env : gmap string string :=
    <["LLM_PROVIDER" := "OpenAI"]>
    (<["OPENAI_MODEL" := "gpt-4o"]>
    {[ "LMSTUDIO_ENDPOINT" := "http://env.example:1/v1" ]}) in
  let fileConfig := Platform.endpointValue "http://127.0.0.1:8080/v1" in
  let final := accumulate env fileConfig in
  @keeps_attributes Platform.externals ∧
  @build Platform.externals (accumulate env fileConfig) = inr final ∧
  final !! "provider" = Some (VString "lmstudio") ∧
  final !! "lmstudio_endpoint" = Some (VString "http://127.0.0.1:8080/v1") ∧
  final !! "openai_model" = Some (VString "gpt-4o") ∧
  final !! "timeout" = Some (VNumber (Finite 3600000 0)).
Proof.
  intros env fileConfig final. split; [exact schema_keeps_attributes|].
  destruct (@precedence_of_layers Platform.externals schema_keeps_attributes)
    as (_ & Hb & _).
  assert (@build Platform.externals (accumulate env fileConfig) = inr final)
    as E by by_vm.
  split; [exact E|].
  pose proof (Hb env fileConfig final "LLM_PROVIDER" "provider" E) as H1.
  pose proof (Hb env fileConfig final "LMSTUDIO_ENDPOINT" "lmstudio_endpoint" E)
    as H2.
  pose proof (Hb env fileConfig final "OPENAI_MODEL" "openai_model" E) as H3.
  destruct (Hb env fileConfig final "LLM_TIMEOUT" "timeout" E ltac:(in_list))
    as (_ & _ & H4).
  destruct H1 as [-> _]; [in_list|].
  destruct H2 as [-> _]; [in_list|].
  destruct H3 as [-> _]; [in_list|].
  rewrite H4 by by_vm.
  all_by_vm.
Defined.

(** ** The environment layer *)

Lemma numeric_recognized var field :
  (var, field) ∈ numeric → (var, field) ∈ recognized.
Proof.
  unfold numeric. rewrite !elem_of_cons, elem_of_nil.
  intros [[= -> ->]|[[= -> ->]|[]]]; in_list.
Qed.

Lemma withEnvironment_lookup env (acc : Obj) var field :
  (var, field) ∈ recognized →
  withEnvironment env acc !! field =
  match envField env var field with
  | Some v => Some v
  | None => acc !! field
  end.
Proof.
  intros Hin. unfold withEnvironment, spread.
  rewrite lookup_union, (envConfig_lookup _ var) by done.
  destruct (envField env var field), (acc !! field); done.
Qed.

(** What the environment layer writes is never empty. *)
Lemma envConfig_truthy env k v :
  envConfig env !! k = Some v → truthy v = true.
Proof.
  intros Hk. pose proof (envConfig_fields _ _ _ Hk) as Hin.
  apply recognized_field_var in Hin as [var Hin].
  rewrite (envConfig_lookup _ var) in Hk by done.
  unfold envField in Hk. destruct (env !! var) as [t|]; [|done].
  destruct (String.eqb t "") eqn:Ht; [done|].
  unfold envValue in Hk.
  destruct (String.eqb k "provider").
  { destruct (String.eqb (toLowerCase t) "openai") eqn:E1.
    - apply String.eqb_eq in E1. rewrite E1 in Hk. by injection Hk as <-.
    - destruct (String.eqb (toLowerCase t) "lmstudio") eqn:E2; [|done].
      apply String.eqb_eq in E2. rewrite E2 in Hk. by injection Hk as <-. }
  destruct (String.eqb k "max_conversation_history" || String.eqb k "timeout").
  { destruct (negb (isNaN (parseInt t)) && gt0 (parseInt t)) eqn:E; [|done].
    injection Hk as <-. apply andb_prop in E as [_ Hpos].
    destruct (parseInt t) as [|neg|m e]; simpl in *; try done.
    apply Z.ltb_lt in Hpos. apply negb_true_iff, Z.eqb_neq. lia. }
  injection Hk as <-. simpl. by rewrite Ht.
Qed.

(** C10.  A recognized variable set to the empty string is treated as
    unset: its field keeps the value of the accumulator, and the whole
    layer is the one of the environment without the variable.  No value
    that the layer writes, for any environment, is empty. *)
Theorem empty_env_var_is_absent env var field (acc : Obj) :
  (var, field) ∈ recognized →
  env !! var = Some "" →
  withEnvironment env acc !! field = acc !! field ∧
  withEnvironment env acc = withEnvironment (delete var env) acc ∧
  (∀ env' k v, envConfig env' !! k = Some v → truthy v = true).
Proof.
  intros Hin Hempty. split; [|split; [|apply envConfig_truthy]].
  - rewrite (withEnvironment_lookup _ _ var) by done.
    unfold envField. by rewrite Hempty.
  - unfold withEnvironment, spread. f_equal. apply map_eq. intros k.
    destruct (decide (k ∈ recognized.*2)) as [Hk|Hk].
    + apply recognized_field_var in Hk as [var' Hin'].
      rewrite !(envConfig_lookup _ var') by done. unfold envField.
      destruct (decide (var' = var)) as [->|Hne].
      * by rewrite Hempty, lookup_delete_eq.
      * by rewrite lookup_delete_ne.
    + destruct (envConfig env !! k) eqn:E1.
      { by apply envConfig_fields in E1. }
      destruct (envConfig (delete var env) !! k) eqn:E2; [|done].
      by apply envConfig_fields in E2.
Qed.

Lemma empty_env_var_is_absent_witness :
  let env : gmap string string :=
    <["OPENAI_API_KEY" := ""]> {[ "OPENAI_MODEL" := "gpt-4o" ]} in
  let acc : Obj := <["openai_api_key" := VString "sk-file"]> defaults in
  withEnvironment env acc !! "openai_api_key" = Some (VString "sk-file") ∧
  withEnvironment env acc = withEnvironment (delete "OPENAI_API_KEY" env) acc.
Proof.
  intros env acc.
  destruct (empty_env_var_is_absent env "OPENAI_API_KEY" "openai_api_key" acc)
    as (H1 & H2 & _).
  - in_list.
  - by_vm.
  - split; [rewrite H1; by_vm|exact H2].
Defined.

Lemma is_digit_range c : is_digit c = true → (48 ≤ c ≤ 57)%nat.
Proof.
  unfold is_digit. intros H. apply andb_prop in H as [H1 H2].
  apply Nat.leb_le in H1, H2. lia.
Qed.

Lemma trimStart_digit c r :
  is_digit c = true → trimStart (c :: r) = c :: r.
Proof.
  intros Hc. apply is_digit_range in Hc.
  assert (ws1 c = false) as H1.
  { unfold ws1. apply orb_false_intro.
    - apply andb_false_intro2. apply Nat.leb_gt. lia.
    - apply Nat.eqb_neq. lia. }
  assert (∀ c2, ws2 c c2 = false) as H2.
  { intros c2. unfold ws2. apply andb_false_intro1, Nat.eqb_neq. lia. }
  assert (∀ c2 c3, ws3 c c2 c3 = false) as H3.
  { intros c2 c3. unfold ws3.
    assert (∀ k, (k > 57)%nat → (c =? k)%nat = false) as Hk.
    { intros k Hgt. apply Nat.eqb_neq. lia. }
    rewrite !Hk by lia. done. }
  simpl. rewrite H1. destruct r as [|c2 [|c3 r3]]; [done| |].
  - by rewrite H2.
  - by rewrite H2, H3.
Qed.

Lemma sign_of_digit c (r : list nat) :
  (48 ≤ c)%nat →
  match c :: r with
  | 45%nat :: r0 => (true, r0)
  | 43%nat :: r0 => (false, r0)
  | _ => (false, c :: r)
  end = (false, c :: r).
Proof. intros H. do 48 (destruct c as [|c]; [lia|]). done. Qed.

Lemma digits_all l : forallb is_digit l = true → digits l = l.
Proof.
  induction l as [|c r IH]; simpl; [done|].
  intros H. apply andb_prop in H as [Hc Hr]. rewrite Hc. by rewrite IH.
Qed.

Lemma toNumber_exact n :
  (0 < n < 2 ^ 53)%Z → toNumber false n = Finite n 0.
Proof.
  intros [Hpos Hlt]. unfold toNumber.
  assert ((n =? 0)%Z = false) as -> by (apply Z.eqb_neq; lia).
  assert (Z.log2 n < 53)%Z as Hlog by (apply Z.log2_lt_pow2; lia).
  assert ((Z.log2 n + 1 <=? 53)%Z = true) as -> by (apply Z.leb_le; lia).
  by rewrite Z.mul_1_l.
Qed.

Lemma digits_prefix (ds rest : list nat) :
  forallb is_digit ds = true → no_leading_digit rest = true →
  digits (ds ++ rest)%list = ds.
Proof.
  intros Hds Hrest. induction ds as [|c r IH]; simpl.
  - destruct rest as [|c r]; [done|]. simpl in Hrest.
    simpl. by destruct (is_digit c).
  - simpl in Hds. apply andb_prop in Hds as [Hc Hr].
    rewrite Hc. by rewrite IH.
Qed.

(** The Number of a positive integer is positive, rounded or not. *)
Lemma toNumber_positive n :
  (0 < n)%Z →
  isNaN (toNumber false n) = false ∧ gt0 (toNumber false n) = true.
Proof.
  intros Hpos. unfold toNumber.
  assert ((n =? 0)%Z = false) as -> by (apply Z.eqb_neq; lia).
  destruct (Z.log2 n + 1 <=? 53)%Z eqn:Hbits.
  { simpl. split; [done|]. apply Z.ltb_lt. lia. }
  apply Z.leb_gt in Hbits.
  set (shift := (Z.log2 n + 1 - 53)%Z).
  assert (0 < shift ≤ Z.log2 n)%Z as Hshift by (unfold shift; lia).
  assert (0 < Z.shiftr n shift)%Z as Hq.
  { rewrite Z.shiftr_div_pow2 by lia. apply Z.div_str_pos. split.
    - apply Z.pow_pos_nonneg; lia.
    - etrans; [|apply Z.log2_spec; lia].
      apply Z.pow_le_mono_r; lia. }
  set (up := (_ || _)).
  assert (0 < Z.shiftl (if up then Z.shiftr n shift + 1
                        else Z.shiftr n shift) shift)%Z as Hrounded.
  { rewrite Z.shiftl_mul_pow2 by lia. apply Z.mul_pos_pos.
    - destruct up; lia.
    - apply Z.pow_pos_nonneg; lia. }
  destruct (_ <=? _)%Z; simpl; [done|].
  split; [done|]. apply Z.ltb_lt. lia.
Qed.

(** [parseInt] reads the digits a text starts with and nothing else. *)
Lemma parseInt_leading v (ds rest : list nat) :
  codes v = (ds ++ rest)%list → ds ≠ [] →
  forallb is_digit ds = true → no_leading_digit rest = true →
  v ≠ "" ∧ parseInt v = toNumber false (decimal ds).
Proof.
  intros Hcodes Hne Hds Hrest.
  split.
  { intros ->. simpl in Hcodes. by destruct ds. }
  unfold parseInt. rewrite Hcodes.
  pose proof (digits_prefix ds rest Hds Hrest) as Hd.
  destruct ds as [|c r]; [done|].
  simpl in Hds. apply andb_prop in Hds as [Hc _].
  change ((c :: r) ++ rest)%list with (c :: (r ++ rest)%list) in *.
  rewrite trimStart_digit by done.
  rewrite sign_of_digit by (apply is_digit_range in Hc; lia).
  by rewrite Hd.
Qed.

(** C7, as the code has it.  A numeric variable leaves its field at the
    prior value whenever [parseInt] of its text is NaN or is not greater
    than zero, as for "abc" and "-5".  A text that starts with digits
    whose integer is positive is taken, whatever follows the digits: the
    field becomes the Number of that integer, which is the integer itself
    below 2^53 and the nearest double (an infinity from 2^1024 on)
    above. *)
Theorem unparsable_numbers_ignored env var field (acc : Obj) v :
  (var, field) ∈ numeric →
  env !! var = Some v →
  (isNaN (parseInt v) = true ∨ gt0 (parseInt v) = false →
   withEnvironment env acc !! field = acc !! field) ∧
  (v ≠ "" → isNaN (parseInt v) = false → gt0 (parseInt v) = true →
   withEnvironment env acc !! field = Some (VNumber (parseInt v))) ∧
  (∀ ds rest : list nat,
     codes v = (ds ++ rest)%list → ds ≠ [] →
     forallb is_digit ds = true → no_leading_digit rest = true →
     (0 < decimal ds)%Z →
     withEnvironment env acc !! field
       = Some (VNumber (toNumber false (decimal ds))) ∧
     ((decimal ds < 2 ^ 53)%Z →
      withEnvironment env acc !! field
        = Some (VNumber (Finite (decimal ds) 0)))).
Proof.
  intros Hin Hv.
  rewrite (withEnvironment_lookup _ _ var) by by apply numeric_recognized.
  unfold envField. rewrite Hv.
  assert (envValue field v =
          if negb (isNaN (parseInt v)) && gt0 (parseInt v)
          then Some (VNumber (parseInt v)) else None) as ->.
  { unfold numeric in Hin. rewrite !elem_of_cons, elem_of_nil in Hin.
    destruct Hin as [[= -> ->]|[[= -> ->]|[]]]; done. }
  split; [|split].
  - intros Hbad. destruct (String.eqb v ""); [done|].
    destruct Hbad as [->| ->]; [done|]. by rewrite andb_false_r.
  - intros Hne Hnan Hpos. apply String.eqb_neq in Hne.
    by rewrite Hne, Hnan, Hpos.
  - intros ds rest Hcodes Hds Hall Hrest Hpos.
    destruct (parseInt_leading v ds rest Hcodes Hds Hall Hrest)
      as [Hne Hparse].
    destruct (toNumber_positive _ Hpos) as [Hnan Hgt].
    apply String.eqb_neq in Hne. rewrite Hne, Hparse, Hnan, Hgt. simpl.
    split; [done|]. intros Hlt. by rewrite toNumber_exact.
Qed.

Lemma unparsable_numbers_ignored_witness :
  withEnvironment {[ "MAX_CONVERSATION_HISTORY" := "abc" ]} defaults
    !! "max_conversation_history" = Some (VNumber (Finite 10 0)) ∧
  withEnvironment {[ "LLM_TIMEOUT" := "-5" ]} defaults
    !! "timeout" = Some (VNumber (Finite 3600000 0)) ∧
  withEnvironment {[ "LLM_TIMEOUT" := "250" ]} defaults
    !! "timeout" = Some (VNumber (Finite 250 0)) ∧
  withEnvironment {[ "LLM_TIMEOUT" := "12abc" ]} defaults
    !! "timeout" = Some (VNumber (Finite 12 0)) ∧
  withEnvironment {[ "LLM_TIMEOUT" := "9007199254740993abc" ]} defaults
    !! "timeout" = Some (VNumber (Finite 9007199254740992 0)).
Proof.
  split; [|split; [|split; [|split]]].
  - rewrite (proj1 (unparsable_numbers_ignored
                      {[ "MAX_CONVERSATION_HISTORY" := "abc" ]}
                      "MAX_CONVERSATION_HISTORY" "max_conversation_history"
                      defaults "abc" ltac:(in_list) ltac:(by_vm)));
      [by_vm|left; by_vm].
  - rewrite (proj1 (unparsable_numbers_ignored
                      {[ "LLM_TIMEOUT" := "-5" ]} "LLM_TIMEOUT" "timeout"
                      defaults "-5" ltac:(in_list) ltac:(by_vm)));
      [by_vm|right; by_vm].
  - rewrite (proj1 (proj2 (unparsable_numbers_ignored
                      {[ "LLM_TIMEOUT" := "250" ]} "LLM_TIMEOUT" "timeout"
                      defaults "250" ltac:(in_list) ltac:(by_vm))));
      [by_vm|discriminate|by_vm|by_vm].
  - apply (proj2 (proj2 (unparsable_numbers_ignored
                      {[ "LLM_TIMEOUT" := "12abc" ]} "LLM_TIMEOUT" "timeout"
                      defaults "12abc" ltac:(in_list) ltac:(by_vm)))
                 (codes "12") (codes "abc"));
      [by_vm|discriminate|by_vm|by_vm|reflexivity|reflexivity].
  - rewrite (proj1 (proj2 (proj2 (unparsable_numbers_ignored
                      {[ "LLM_TIMEOUT" := "9007199254740993abc" ]}
                      "LLM_TIMEOUT" "timeout"
                      defaults "9007199254740993abc"
                      ltac:(in_list) ltac:(by_vm)))
                 (codes "9007199254740993") (codes "abc")
                 ltac:(by_vm) ltac:(discriminate) ltac:(by_vm) ltac:(by_vm)
                 ltac:(reflexivity))).
    by_vm.
Defined.

(** C7 as stated fails: "12abc" and "1.5" are no positive integers, yet
    the fields take 12 and 1 in place of the defaults 10 and 3600000. *)
Lemma leading_digits_are_accepted :
  isPositiveIntegerText "12abc" = false ∧
  isPositiveIntegerText "1.5" = false ∧
  withEnvironment {[ "MAX_CONVERSATION_HISTORY" := "12abc" ]} defaults
    !! "max_conversation_history" = Some (VNumber (Finite 12 0)) ∧
  defaults !! "max_conversation_history" = Some (VNumber (Finite 10 0)) ∧
  withEnvironment {[ "LLM_TIMEOUT" := "1.5" ]} defaults
    !! "timeout" = Some (VNumber (Finite 1 0)) ∧
  defaults !! "timeout" = Some (VNumber (Finite 3600000 0)) ∧
  ¬ malformed_numbers_ignored.
Proof.
  repeat match goal with |- _ ∧ _ => split end; try by_vm.
  intros H.
  specialize (H {[ "MAX_CONVERSATION_HISTORY" := "12abc" ]}
                "MAX_CONVERSATION_HISTORY" "max_conversation_history"
                defaults "12abc" ltac:(in_list) ltac:(by_vm) ltac:(by_vm)).
  vm_compute in H. discriminate H.
Qed.

(** ** Provider requirements *)

(** The two conditions under which [validateProviderRequirements]
    throws. *)
Lemma validateProviderRequirements_cases `{Externals} config :
  validateProviderRequirements config =
  if strictEqString (prop config "provider") "openai"
     && negb (truthy (prop config "openai_api_key"))
  then Some (apiKeyRequired config)
  else if strictEqString (prop config "provider") "lmstudio"
          && truthy (prop config "lmstudio_endpoint")
          && negb (URL_canParse (ToString (prop config "lmstudio_endpoint")))
  then Some (invalidEndpoint config)
  else None.
Proof.
  unfold validateProviderRequirements.
  destruct (strictEqString (prop config "provider") "openai"
            && negb (truthy (prop config "openai_api_key"))); [done|].
  destruct (strictEqString (prop config "provider") "lmstudio"); [|done].
  destruct (truthy (prop config "lmstudio_endpoint")); [|done].
  by destruct (URL_canParse _).
Qed.

(** C2.  For an accumulator whose final-mode validation returns
    [validated], [build] is decided as follows.  It throws 'Provider must
    be specified' when the accumulator has no provider (the guard that
    precedes validation); otherwise it throws 'OpenAI API key is required
    when using OpenAI provider. Set OPENAI_API_KEY environment variable or
    add it to your config file.' when the provider is 'openai' and the key
    is absent or empty, throws 'Invalid LMStudio endpoint URL: ' followed
    by the endpoint when the provider is 'lmstudio' and the endpoint is
    set, not empty and rejected by the URL constructor, and returns
    [validated] in every other case.  So for an accumulator that has a
    provider, [build] throws exactly under one of the two provider
    conditions, and whatever it throws is a ConfigurationError. *)
Theorem build_provider_requirements `{Externals} config validated
    (Hvalid : validateConfig FinalMode (VObject config) = inr validated) :
  let keyMissing :=
    strictEqString (prop validated "provider") "openai"
    && negb (truthy (prop validated "openai_api_key")) in
  let endpointInvalid :=
    strictEqString (prop validated "provider") "lmstudio"
    && truthy (prop validated "lmstudio_endpoint")
    && negb (URL_canParse (ToString (prop validated "lmstudio_endpoint"))) in
  build config =
    (if negb (truthy (prop config "provider")) then
       inl (ConfigurationError "Provider must be specified" ∅ None)
     else if keyMissing then
       inl (ConfigurationError
              ("OpenAI API key is required when using OpenAI provider. " ++
               "Set OPENAI_API_KEY environment variable or add it to " ++
               "your config file.")
              {[ "provider" := prop validated "provider" ]} None)
     else if endpointInvalid then
       inl (ConfigurationError
              ("Invalid LMStudio endpoint URL: " ++
               ToString (prop validated "lmstudio_endpoint"))
              (<["provider" := prop validated "provider"]>
               {[ "endpoint" := prop validated "lmstudio_endpoint" ]})
              None)
     else inr validated) ∧
  (truthy (prop config "provider") = true →
   ((∃ e, build config = inl e) ↔ keyMissing || endpointInvalid = true)) ∧
  (∀ e, build config = inl e → isConfigurationError e = true).
Proof.
  intros keyMissing endpointInvalid.
  assert (build config =
          if negb (truthy (prop config "provider"))
          then inl (ConfigurationError "Provider must be specified" ∅ None)
          else if keyMissing then inl (apiKeyRequired validated)
          else if endpointInvalid then inl (invalidEndpoint validated)
          else inr validated) as Hbuild.
  { unfold build. destruct (truthy (prop config "provider")); simpl; [|done].
    rewrite Hvalid, validateProviderRequirements_cases.
    fold keyMissing endpointInvalid.
    by destruct keyMissing, endpointInvalid. }
  split; [exact Hbuild|]. rewrite Hbuild. split.
  - intros ->. simpl.
    destruct keyMissing, endpointInvalid; simpl; split;
      try done; try (by eexists); by intros [e ?].
  - intros e. destruct (truthy (prop config "provider")); simpl;
      [|by intros [= <-]].
    destruct keyMissing, endpointInvalid; by intros [= <-].
Qed.

Lemma build_provider_requirements_witness :
  let keyed := accumulate {[ "OPENAI_API_KEY" := "sk-test" ]} (VObject ∅) in
  @build Platform.externals (accumulate ∅ (VObject ∅)) =
    inl (ConfigurationError
           ("OpenAI API key is required when using OpenAI provider. " ++
            "Set OPENAI_API_KEY environment variable or add it to " ++
            "your config file.")
           {[ "provider" := VString "openai" ]} None) ∧
  @build Platform.externals
     (accumulate ∅ (Platform.endpointValue "not a url")) =
    inl (ConfigurationError "Invalid LMStudio endpoint URL: not a url"
           (<["provider" := VString "lmstudio"]>
            {[ "endpoint" := VString "not a url" ]}) None) ∧
  @build Platform.externals keyed = inr keyed ∧
  keyed !! "openai_api_key" = Some (VString "sk-test") ∧
  ¬ ∃ e, @build Platform.externals keyed = inl e.
Proof.
  intros keyed.
  pose proof (@build_provider_requirements Platform.externals) as Hbuild.
  split; [|split; [|split; [|split]]].
  - rewrite (proj1 (Hbuild (accumulate ∅ (VObject ∅))
                           (accumulate ∅ (VObject ∅)) ltac:(by_vm))).
    by_vm.
  - rewrite (proj1 (Hbuild
                      (accumulate ∅ (Platform.endpointValue "not a url"))
                      (accumulate ∅ (Platform.endpointValue "not a url"))
                      ltac:(by_vm))).
    by_vm.
  - rewrite (proj1 (Hbuild keyed keyed ltac:(by_vm))). by_vm.
  - by_vm.
  - intros Hthrows.
    apply (proj1 (proj2 (Hbuild keyed keyed ltac:(by_vm))) ltac:(by_vm))
      in Hthrows.
    vm_compute in Hthrows. discriminate Hthrows.
Defined.

(** C8, as the code has it.  A configuration that [build] returns for
    'lmstudio' with an endpoint that is set and not empty has an endpoint
    the URL constructor accepts; an empty or absent endpoint is not
    checked.  The accumulator of a load in which no layer sets the
    endpoint holds the default 'http://localhost:1234/v1'. *)
Theorem lmstudio_endpoint_checked `{Externals} config validated :
  build config = inr validated →
  strictEqString (prop validated "provider") "lmstudio" = true →
  (truthy (prop validated "lmstudio_endpoint") = true →
   URL_canParse (ToString (prop validated "lmstudio_endpoint")) = true) ∧
  (∀ env fileConfig,
     ownProperties fileConfig !! "lmstudio_endpoint" = None →
     env !! "LMSTUDIO_ENDPOINT" = None →
     accumulate env fileConfig !! "lmstudio_endpoint" =
       Some (VString "http://localhost:1234/v1")).
Proof.
  intros Hb Hprov. split.
  - intros Hset. apply build_returns in Hb as (_ & _ & Hreq).
    rewrite validateProviderRequirements_cases in Hreq.
    rewrite Hprov, Hset in Hreq. simpl in Hreq.
    destruct (strictEqString (prop validated "provider") "openai"
              && negb (truthy (prop validated "openai_api_key"))); [done|].
    by destruct (URL_canParse _).
  - intros env fileConfig Hfile Henv.
    rewrite accumulate_lookup. unfold layered. rewrite Hfile.
    rewrite (envConfig_lookup _ "LMSTUDIO_ENDPOINT")
      by (in_list).
    unfold envField. by rewrite Henv.
Qed.

Lemma lmstudio_endpoint_checked_witness :
  let validated :=
    accumulate ∅ (Platform.endpointValue "http://127.0.0.1:8080/v1") in
  @build Platform.externals validated = inr validated ∧
  Platform.URL_canParse
    (@ToString Platform.externals (prop validated "lmstudio_endpoint"))
    = true.
Proof.
  intros validated.
  assert (@build Platform.externals validated = inr validated) as E
    by by_vm.
  split; [exact E|].
  apply (proj1 (@lmstudio_endpoint_checked Platform.externals _ validated E
                  ltac:(by_vm))).
  by_vm.
Defined.

(** C8 as stated fails: a file that sets the provider to 'lmstudio' and
    the endpoint to the empty string loads, and the configuration returned
    has an endpoint that is no URL. *)
Lemma empty_endpoint_is_returned :
  let fs : gmap string FileEntry :=
    {[ "/proj/.documenter.json" := Content (Platform.endpointText "") ]} in
  let validated := accumulate ∅ (Platform.endpointValue "") in
  @build Platform.externals validated = inr validated ∧
  validated !! "provider" = Some (VString "lmstudio") ∧
  validated !! "lmstudio_endpoint" = Some (VString "") ∧
  Platform.URL_canParse "" = false ∧
  (@loadConfig Platform.externals (Platform.start ∅ fs)).1
    = inr 1%positive ∧
  heap (@loadConfig Platform.externals (Platform.start ∅ fs)).2
    !! 1%positive = Some validated ∧
  ¬ @lmstudio_endpoint_always_url Platform.externals.
Proof.
  intros fs validated.
  assert (@build Platform.externals validated = inr validated) as E
    by by_vm.
  assert (validated !! "lmstudio_endpoint" = Some (VString "")) as He
    by by_vm.
  repeat match goal with |- _ ∧ _ => split end; try by_vm.
  intros H. destruct (H _ _ E ltac:(by_vm)) as (s & Hs & Hurl).
  rewrite He in Hs. injection Hs as <-. discriminate Hurl.
Qed.

(** ** The search for a configuration file *)

Section Search.

Context {ext : Externals}.

Lemma tryCandidate_unreadable p s :
  unreadable s p → tryCandidate p s = (inr None, log (ReadFile p) s).
Proof.
  intros Hun. unfold tryCandidate, readFile. monad_unfold.
  destruct (files s !! p) as [[text|code]|] eqn:E; try done.
  by destruct (Hun text).
Qed.

Lemma tryCandidate_readable p s text :
  files s !! p = Some (Content text) →
  tryCandidate p s =
  (match JSON_parse text with
   | inr v =>
       match validateConfig FileMode v with
       | inr _ => inr (Some v)
       | inl e => inl (invalidConfiguration p e)
       end
   | inl (SyntaxError message) =>
       inl (invalidJSON p (SyntaxError message) message)
   | inl (ConfigurationError m c o) => inl (ConfigurationError m c o)
   | inl (Error _ _) => inr None
   end, log (ReadFile p) s).
Proof.
  intros Hf. unfold tryCandidate, readFile. monad_unfold. rewrite Hf.
  destruct (JSON_parse text) as [[]|v]; simpl; try done.
  by destruct (validateConfig FileMode v).
Qed.

End Search.

(** C3, as the code has it.  In the search over the two candidate paths,
    a candidate that cannot be read, because it is missing or because
    reading it fails in any other way, lets the search go on to the next
    candidate; a text that is no JSON, or that file-mode validation
    rejects, ends the whole search with a ConfigurationError whose
    context carries the path, and the next candidate is not read; the
    first candidate that reads, parses and validates is returned as
    parsed; when no candidate can be read the result is the empty
    object. *)
Theorem config_file_search `{Externals} s :
  let p1 := path_join [cwd s; ".documenter.json"] in
  let p2 := path_join [cwd s; "documenter.config.json"] in
  loadFromFiles s = searchPaths [p1; p2] s ∧
  (unreadable s p1 → unreadable s p2 →
   loadFromFiles s =
     (inr (VObject ∅), log (ReadFile p2) (log (ReadFile p1) s))) ∧
  ∀ p rest s0,
    (unreadable s0 p →
     searchPaths (p :: rest) s0 = searchPaths rest (log (ReadFile p) s0)) ∧
    (∀ text message,
       files s0 !! p = Some (Content text) →
       JSON_parse text = inl (SyntaxError message) →
       searchPaths (p :: rest) s0 =
         (inl (ConfigurationError
                 ("Invalid JSON in configuration file " ++ p ++ ": " ++
                  message)
                 {[ "configPath" := VString p ]}
                 (Some (SyntaxError message))),
          log (ReadFile p) s0)) ∧
    (∀ text v e,
       files s0 !! p = Some (Content text) →
       JSON_parse text = inr v →
       validateConfig FileMode v = inl e →
       searchPaths (p :: rest) s0 =
         (inl (ConfigurationError
                 ("Invalid configuration in " ++ p ++ ": " ++
                  getErrorMessage e)
                 {[ "configPath" := VString p ]}
                 (Some e)),
          log (ReadFile p) s0)) ∧
    (∀ text v o,
       files s0 !! p = Some (Content text) →
       JSON_parse text = inr v →
       validateConfig FileMode v = inr o →
       searchPaths (p :: rest) s0 = (inr v, log (ReadFile p) s0)).
Proof.
  intros p1 p2.
  assert (∀ p rest s0, unreadable s0 p →
            searchPaths (p :: rest) s0 =
            searchPaths rest (log (ReadFile p) s0)) as Hskip.
  { intros p rest s0 Hun. simpl. unfold bind at 1.
    by rewrite tryCandidate_unreadable. }
  split; [done|]. split.
  - intros H1 H2. unfold loadFromFiles. monad_unfold. fold p1 p2.
    unfold configPaths. fold p1 p2.
    rewrite Hskip by done. rewrite Hskip by done. done.
  - intros p rest s0. split; [apply Hskip|].
    split; [|split].
    + intros text message Hf Hp. simpl. unfold bind at 1.
      by rewrite (tryCandidate_readable _ _ text), Hp.
    + intros text v e Hf Hp Hv. simpl. unfold bind at 1.
      by rewrite (tryCandidate_readable _ _ text), Hp, Hv.
    + intros text v o Hf Hp Hv. simpl. unfold bind at 1.
      by rewrite (tryCandidate_readable _ _ text), Hp, Hv.
Qed.

Lemma config_file_search_witness :
  let p1 := "/proj/.documenter.json" in
  let p2 := "/proj/documenter.config.json" in
  let fs : gmap string FileEntry :=
    <[p1 := Content "{ broken"]> {[ p2 := Content "{}" ]} in
  @loadFromFiles Platform.externals (Platform.start ∅ fs) =
    (inl (ConfigurationError
            ("Invalid JSON in configuration file " ++ p1 ++
             ": Unexpected token")
            {[ "configPath" := VString p1 ]}
            (Some (SyntaxError "Unexpected token"))),
     log (ReadFile p1) (Platform.start ∅ fs)).
Proof.
  intros p1 p2 fs.
  destruct (@config_file_search Platform.externals (Platform.start ∅ fs))
    as (Hload & _ & Hsearch).
  rewrite Hload.
  destruct (Hsearch p1 [p2] (Platform.start ∅ fs)) as (_ & Hjson & _).
  apply (Hjson "{ broken" "Unexpected token"); by_vm.
Defined.

(** C3 as stated fails: a first candidate that exists and cannot be read
    (EACCES) is passed over.  The search goes on to the second candidate
    and returns it, or returns the empty object when there is none, and
    the load succeeds. *)
Lemma unreadable_file_falls_through :
  let p1 := "/proj/.documenter.json" in
  let p2 := "/proj/documenter.config.json" in
  let text := Platform.endpointText "http://127.0.0.1:8080/v1" in
  let both : gmap string FileEntry :=
    <[p1 := Failing "EACCES"]> {[ p2 := Content text ]} in
  let one : gmap string FileEntry := {[ p1 := Failing "EACCES" ]} in
  @loadFromFiles Platform.externals (Platform.start ∅ both) =
    (inr (Platform.endpointValue "http://127.0.0.1:8080/v1"),
     log (ReadFile p2) (log (ReadFile p1) (Platform.start ∅ both))) ∧
  fst (@loadFromFiles Platform.externals (Platform.start ∅ one)) =
    inr (VObject ∅) ∧
  fst (@loadConfig Platform.externals
         (Platform.start {[ "OPENAI_API_KEY" := "sk-test" ]} one)) =
    inr 1%positive.
Proof. intros p1 p2 text both one. all_by_vm. Qed.

(** ** The cache of the manager *)

Section Cache.

Context {ext : Externals}.

Lemma loadConfig_keeps_cache s r s' :
  loadConfig s = (r, s') → is_Some (config s) → is_Some (config s').
Proof.
  destruct r as [e|l]; intros Hload Hc.
  - apply loadConfig_throws in Hload as (_ & -> & _). done.
  - apply loadConfig_returns in Hload as (_ & s2 & _ & v & _ & _ & _ & _ & ->).
    by eexists.
Qed.

Lemma cached_getConfig_eq s c :
  config s = Some c → getConfig s = (inr c, s).
Proof. intros Hc. unfold getConfig. monad_unfold. by rewrite Hc. Qed.

Lemma unloaded_getConfig_eq s :
  config s = None → getConfig s = loadConfig s.
Proof. intros Hc. unfold getConfig. monad_unfold. by rewrite Hc. Qed.

Lemma getConfig_keeps_cache s r s' :
  getConfig s = (r, s') → is_Some (config s) → is_Some (config s').
Proof.
  intros Hget [c Hc]. rewrite (cached_getConfig_eq _ c) in Hget by done.
  injection Hget as <- <-. by eexists.
Qed.

Lemma fresh_not_live (h : gmap loc Obj) : h !! fresh (dom h) = None.
Proof. apply not_elem_of_dom, is_fresh. Qed.

Lemma isValidForProvider_effect provider s :
  (isValidForProvider provider s).2 = (getConfig s).2.
Proof.
  unfold isValidForProvider, deref. monad_unfold.
  destruct (getConfig s) as [[e|c] s1]; [done|]. simpl.
  destruct (negb (strictEqString _ provider)); [done|].
  destruct (String.eqb provider "openai"); [done|].
  by destruct (String.eqb provider "lmstudio").
Qed.

Lemma getConfigSummary_effect s :
  (getConfigSummary s).2 = (getConfig s).2.
Proof.
  unfold getConfigSummary, deref. monad_unfold.
  by destruct (getConfig s) as [[e|c] s1].
Qed.

Lemma sanitizeConfigForLogging_eq l s :
  sanitizeConfigForLogging l s =
  (inr (fresh (dom (heap s))),
   setHeap (<[fresh (dom (heap s)) := redacted (default ∅ (heap s !! l))]>
              (heap s)) s).
Proof.
  unfold sanitizeConfigForLogging, deref, alloc, setProp, redacted, spread.
  monad_unfold. simpl. rewrite lookup_insert_eq. simpl.
  rewrite (right_id_L ∅ (∪)).
  destruct (truthy (prop (default ∅ (heap s !! l)) "openai_api_key")); simpl.
  - unfold setHeap; simpl. do 2 f_equal.
    rewrite alter_insert_eq. done.
  - done.
Qed.

(** The cache stays live through every operation of the manager, so a
    read through the cached reference never meets a missing object. *)
Lemma cache_live_loadConfig s r s' :
  loadConfig s = (r, s') → cache_live s → cache_live s'.
Proof.
  destruct r as [e|l]; intros Hload Hlive.
  - apply loadConfig_throws in Hload as (_ & Hc & Hh & _).
    intros l. rewrite Hc, Hh. apply Hlive.
  - apply loadConfig_returns in Hload as (_ & s2 & _ & v & _ & _ & _ & _ & ->).
    intros l' [= <-]. simpl. rewrite lookup_insert_eq. by eexists.
Qed.

Lemma cache_live_getConfig s r s' :
  getConfig s = (r, s') → cache_live s → cache_live s'.
Proof.
  destruct (config s) as [c|] eqn:Hc.
  - rewrite (cached_getConfig_eq _ c) by done. by intros [= <- <-].
  - rewrite unloaded_getConfig_eq by done. apply cache_live_loadConfig.
Qed.

Lemma cache_live_sanitize l s :
  cache_live s → cache_live (sanitizeConfigForLogging l s).2.
Proof.
  intros Hlive l' Hl'. rewrite sanitizeConfigForLogging_eq in *. simpl in *.
  destruct (Hlive l' Hl') as [o Ho]. exists o.
  rewrite lookup_insert_ne; [done|]. intros Heq.
  pose proof (fresh_not_live (heap s)) as Hfresh.
  rewrite Heq, Ho in Hfresh. done.
Qed.

Lemma cache_live_reset s : cache_live (reset s).2.
Proof. intros l. done. Qed.

End Cache.

(** C4, as the code has it.  A load that throws throws a
    ConfigurationError and leaves the cache as it was before the call:
    empty when it was empty, and still holding the earlier configuration
    when a load had succeeded before.  The cache is written only by a load
    that succeeds, with the reference of the complete validated object,
    and of all the operations of the manager only [reset] empties it. *)
Theorem failed_load_keeps_cache `{Externals} :
  (∀ s e s',
     loadConfig s = (inl e, s') →
     isConfigurationError e = true ∧ config s' = config s ∧
     heap s' = heap s) ∧
  (∀ s l s',
     loadConfig s = (inr l, s') →
     config s' = Some l ∧ heap s !! l = None ∧
     ∃ validated, heap s' = <[l := validated]> (heap s)) ∧
  (∀ s, reset s = (inr tt, withCache None s)) ∧
  (∀ s,
     is_Some (config s) →
     is_Some (config (loadConfig s).2) ∧
     is_Some (config (getConfig s).2) ∧
     (∀ provider, is_Some (config (isValidForProvider provider s).2)) ∧
     is_Some (config (getConfigSummary s).2) ∧
     (∀ l, is_Some (config (sanitizeConfigForLogging l s).2))).
Proof.
  split; [|split; [|split]].
  - intros s e s' Hload.
    apply loadConfig_throws in Hload as (He & Hc & Hh & _). done.
  - intros s l s' Hload.
    apply loadConfig_returns in Hload
      as (s1 & s2 & f & v & H1 & H2 & _ & -> & ->).
    apply loadEnvConfig_effect in H1 as (_ & Hh1 & _).
    apply loadFromFiles_effect in H2 as ((_ & Hh2 & _) & _).
    simpl. rewrite Hh2, Hh1. split; [done|].
    split; [apply fresh_not_live|by exists v].
  - done.
  - intros s Hs.
    assert (is_Some (config (getConfig s).2)) as Hget.
    { destruct (getConfig s) as [r s'] eqn:E.
      by eapply getConfig_keeps_cache. }
    split; [|split; [done|split; [|split]]].
    + destruct (loadConfig s) as [r s'] eqn:E.
      by eapply loadConfig_keeps_cache.
    + intros provider. by rewrite isValidForProvider_effect.
    + by rewrite getConfigSummary_effect.
    + intros l. by rewrite sanitizeConfigForLogging_eq.
Qed.

Lemma failed_load_keeps_cache_witness :
  let s := Platform.start ∅ ∅ in
  let e := ConfigurationError apiKeyMessage
             {[ "provider" := VString "openai" ]} None in
  (@loadConfig Platform.externals s).1 = inl e ∧
  isConfigurationError e = true ∧
  config (@loadConfig Platform.externals s).2 = None ∧
  heap (@loadConfig Platform.externals s).2 = ∅.
Proof.
  intros s e.
  assert (@loadConfig Platform.externals s =
          (inl e, (@loadConfig Platform.externals s).2)) as E by by_vm.
  destruct (@failed_load_keeps_cache Platform.externals) as (Hfail & _).
  destruct (Hfail s e _ E) as (He & Hc & Hh).
  split; [by_vm|]. split; [exact He|].
  split; [rewrite Hc; by_vm|rewrite Hh; by_vm].
Defined.

(** C4 as stated fails: after a load that succeeded, a second load that
    throws (the API key is gone from the environment) leaves the cache
    holding the configuration of the first load, not empty. *)
Lemma stale_cache_after_failed_reload :
  let s0 := Platform.start {[ "OPENAI_API_KEY" := "sk-test" ]} ∅ in
  let s1 := (@loadConfig Platform.externals s0).2 in
  let second := @loadConfig Platform.externals (setEnv ∅ s1) in
  (@loadConfig Platform.externals s0).1 = inr 1%positive ∧
  second.1 = inl (ConfigurationError apiKeyMessage
                    {[ "provider" := VString "openai" ]} None) ∧
  config second.2 = Some 1%positive ∧
  prop (default ∅ (heap second.2 !! 1%positive)) "openai_api_key"
    = VString "sk-test".
Proof. intros s0 s1 second. all_by_vm. Qed.

(** C5.  With a configuration cached, [getConfig] returns the cached
    reference and leaves the whole state as it is (the object store, the
    environment, the files and the log of I/O), whatever the environment
    and the files hold; so a [getConfig] that returned is repeated by any
    later [getConfig] with the same reference and no further I/O.  With
    the cache empty, [getConfig] is [loadConfig]. *)
Theorem getConfig_cached `{Externals} :
  (∀ s c, config s = Some c → getConfig s = (inr c, s)) ∧
  (∀ s c s',
     getConfig s = (inr c, s') →
     getConfig s' = (inr c, s') ∧ io_log (getConfig s').2 = io_log s') ∧
  (∀ s1 s2 c,
     config s1 = Some c → config s2 = Some c →
     (getConfig s1).1 = (getConfig s2).1) ∧
  (∀ s, config s = None → getConfig s = loadConfig s).
Proof.
  split; [apply @cached_getConfig_eq|].
  split; [|split; [|apply @unloaded_getConfig_eq]].
  - intros s c s' Hget.
    assert (config s' = Some c) as Hc.
    { destruct (config s) as [c0|] eqn:E.
      - rewrite (cached_getConfig_eq _ c0) in Hget by done.
        by injection Hget as <- <-.
      - rewrite unloaded_getConfig_eq in Hget by done.
        by apply loadConfig_returns in Hget
          as (_ & s2 & _ & v & _ & _ & _ & -> & ->). }
    by rewrite (cached_getConfig_eq _ c).
  - intros s1 s2 c H1 H2.
    by rewrite !(cached_getConfig_eq _ c).
Qed.

Lemma getConfig_cached_witness :
  let s0 := Platform.start {[ "OPENAI_API_KEY" := "sk-test" ]} ∅ in
  let s1 := (@getConfig Platform.externals s0).2 in
  (@getConfig Platform.externals s0).1 = inr 1%positive ∧
  @getConfig Platform.externals s1 = (inr 1%positive, s1) ∧
  @getConfig Platform.externals (setEnv ∅ s1) = (inr 1%positive, setEnv ∅ s1).
Proof.
  intros s0 s1.
  destruct (@getConfig_cached Platform.externals) as (Hcached & Hagain & _).
  assert (@getConfig Platform.externals s0 = (inr 1%positive, s1)) as E
    by by_vm.
  split; [by_vm|]. split.
  - exact (proj1 (Hagain s0 1%positive s1 E)).
  - apply Hcached. by_vm.
Defined.

(** ** Redaction and the summary *)

Lemma redacted_other (c : Obj) k :
  k ≠ "openai_api_key" → redacted c !! k = c !! k.
Proof.
  intros Hk. unfold redacted.
  destruct (truthy (prop c "openai_api_key")); [|done].
  by rewrite lookup_insert_ne.
Qed.

(** C6.  For a reference [l] to a configuration [c],
    [sanitizeConfigForLogging] returns a reference to a new object and
    changes nothing else: [c] is still what [l] denotes, every object of
    the store is as before, and the manager field, the environment, the
    files and the log of I/O are the same.  The new object has the fields
    of [c], except that a non-empty API key is replaced by '[REDACTED]';
    an absent or empty key is left as it is.  The result does not depend
    on the manager field. *)
Theorem sanitize_redacts (s : State) (l : loc) (c : Obj)
    (Hlive : heap s !! l = Some c) :
  ∃ sanitized s',
    sanitizeConfigForLogging l s = (inr sanitized, s') ∧
    heap s !! sanitized = None ∧
    heap s' = <[sanitized := redacted c]> (heap s) ∧
    heap s' !! l = Some c ∧
    (∀ l', is_Some (heap s !! l') → heap s' !! l' = heap s !! l') ∧
    withCache (config s) s' = setHeap (heap s') s ∧
    (∀ k, k ≠ "openai_api_key" → redacted c !! k = c !! k) ∧
    (∀ key, c !! "openai_api_key" = Some (VString key) → key ≠ "" →
            redacted c !! "openai_api_key" = Some (VString "[REDACTED]")) ∧
    (c !! "openai_api_key" = None ∨
     c !! "openai_api_key" = Some (VString "") →
     redacted c = c) ∧
    (∀ cache,
       sanitizeConfigForLogging l (withCache cache s) =
       (inr sanitized, withCache cache s')).
Proof.
  exists (fresh (dom (heap s))), (setHeap (<[fresh (dom (heap s)) := redacted c]>
                                     (heap s)) s).
  assert (heap s !! fresh (dom (heap s)) = None) as Hfresh
    by apply fresh_not_live.
  split.
  { rewrite sanitizeConfigForLogging_eq. by rewrite Hlive. }
  split; [done|]. split; [done|]. split.
  { simpl. rewrite lookup_insert_ne; [done|]. intros Heq.
    rewrite Heq, Hlive in Hfresh. done. }
  split.
  { intros l' [o Ho]. simpl. rewrite lookup_insert_ne; [done|].
    intros Heq. rewrite Heq, Ho in Hfresh. done. }
  split; [done|]. split; [apply redacted_other|]. split.
  { intros key Hkey Hne. unfold redacted, prop. rewrite Hkey. simpl.
    apply String.eqb_neq in Hne. rewrite Hne. simpl.
    apply lookup_insert_eq. }
  split.
  { unfold redacted, prop. by intros [-> | ->]. }
  intros cache. rewrite sanitizeConfigForLogging_eq. simpl.
  by rewrite Hlive.
Qed.

Lemma sanitize_redacts_witness :
  let c : Obj := <["openai_api_key" := VString "sk-test"]> defaults in
  let s := mkState (Some 1%positive) {[ 1%positive := c ]} ∅ ∅ "/proj" [] in
  ∃ s',
    sanitizeConfigForLogging 1%positive s = (inr 2%positive, s') ∧
    heap s' !! 1%positive = Some c ∧
    heap s' !! 2%positive =
      Some (<["openai_api_key" := VString "[REDACTED]"]> defaults).
Proof.
  intros c s.
  destruct (sanitize_redacts s 1%positive c ltac:(by_vm))
    as (sanitized & s' & Heq & _ & Hheap & Hold & _).
  exists s'.
  assert (sanitized = 2%positive) as ->.
  { rewrite sanitizeConfigForLogging_eq in Heq. by injection Heq as <- _. }
  split; [exact Heq|]. split; [exact Hold|].
  rewrite Hheap, lookup_insert_eq. by_vm.
Defined.

Lemma prop_without_key (c1 c2 : Obj) k :
  delete "openai_api_key" c1 = delete "openai_api_key" c2 →
  k ≠ "openai_api_key" → prop c1 k = prop c2 k.
Proof.
  intros Heq Hk. unfold prop.
  rewrite <- (lookup_delete_ne c1 "openai_api_key" k) by done.
  rewrite <- (lookup_delete_ne c2 "openai_api_key" k) by done.
  by rewrite Heq.
Qed.

Lemma summaryOf_without_key (c1 c2 : Obj) workingDir :
  delete "openai_api_key" c1 = delete "openai_api_key" c2 →
  summaryOf c1 workingDir = summaryOf c2 workingDir.
Proof.
  intros Heq. unfold summaryOf.
  rewrite !(prop_without_key c1 c2 _ Heq) by discriminate. done.
Qed.




(** * Further properties of the builder and the manager *)

(** ** Readiness for a provider *)

Section Readiness.

Context {ext : Externals}.

Lemma isValidForProvider_cached provider s l :
  config s = Some l →
  isValidForProvider provider s =
  (inr (let c := default ∅ (heap s !! l) in
        strictEqString (prop c "provider") provider
        && (String.eqb provider "openai"
            && truthy (prop c "openai_api_key")
            || String.eqb provider "lmstudio"
               && truthy (prop c "lmstudio_endpoint")
               && truthy (prop c "lmstudio_model"))), s).
Proof.
  intros Hc. unfold isValidForProvider, deref. monad_unfold.
  rewrite (cached_getConfig_eq _ l) by done. simpl.
  destruct (strictEqString _ provider); simpl; [|done].
  destruct (String.eqb provider "openai") eqn:E1; simpl.
  { apply String.eqb_eq in E1. subst provider. simpl.
    by rewrite orb_false_r. }
  by destruct (String.eqb provider "lmstudio").
Qed.

End Readiness.

(** X1.  [isValidForProvider] never throws.  It leaves the state that
    [getConfig] leaves; it answers false when [getConfig] throws, and
    otherwise answers whether the configuration's provider is the one
    asked for and, for 'openai', the API key is set and not empty, for
    'lmstudio', the endpoint and the model both are; for any other name
    the answer is false. *)
Theorem isValidForProvider_answers `{Externals} provider s :
  ∃ b,
    isValidForProvider provider s = (inr b, (getConfig s).2) ∧
    (∀ e, (getConfig s).1 = inl e → b = false) ∧
    (∀ l, (getConfig s).1 = inr l →
       let c := default ∅ (heap (getConfig s).2 !! l) in
       b = strictEqString (prop c "provider") provider
           && (String.eqb provider "openai"
               && truthy (prop c "openai_api_key")
               || String.eqb provider "lmstudio"
                  && truthy (prop c "lmstudio_endpoint")
                  && truthy (prop c "lmstudio_model"))).
Proof.
  unfold isValidForProvider, deref. monad_unfold.
  destruct (getConfig s) as [[e|l] s1]; simpl.
  { exists false. by repeat split. }
  exists (let c := default ∅ (heap s1 !! l) in
          strictEqString (prop c "provider") provider
          && (String.eqb provider "openai"
              && truthy (prop c "openai_api_key")
              || String.eqb provider "lmstudio"
                 && truthy (prop c "lmstudio_endpoint")
                 && truthy (prop c "lmstudio_model"))).
  split; [|split; [done|by intros l' [= <-]]]. simpl.
  destruct (strictEqString _ provider); simpl; [|done].
  destruct (String.eqb provider "openai") eqn:E1; simpl.
  { apply String.eqb_eq in E1. subst provider. simpl.
    by rewrite orb_false_r. }
  by destruct (String.eqb provider "lmstudio").
Qed.

(** X2.  A load that returns a configuration for 'openai' leaves the
    manager ready for 'openai' and not for 'lmstudio': the two readiness
    checks answer true and false, from the cache, without changing the
    state. *)
Theorem loaded_openai_is_ready `{Externals} s l s' :
  loadConfig s = (inr l, s') →
  strictEqString (prop (default ∅ (heap s' !! l)) "provider") "openai" = true →
  isValidForProvider "openai" s' = (inr true, s') ∧
  isValidForProvider "lmstudio" s' = (inr false, s').
Proof.
  intros Hload Hprov.
  apply loadConfig_returns in Hload
    as (s1 & s2 & f & v & _ & _ & Hb & -> & ->).
  apply build_returns in Hb as (_ & _ & Hreq).
  set (l := fresh (dom (heap s2))) in *.
  assert (heap (loaded s2 v) !! l = Some v) as Hl
    by apply lookup_insert_eq.
  rewrite Hl in Hprov. simpl in Hprov.
  rewrite validateProviderRequirements_cases, Hprov in Hreq.
  destruct (truthy (prop v "openai_api_key")) eqn:Hkey; [|done].
  rewrite !(isValidForProvider_cached _ _ l) by done.
  rewrite Hl. simpl. rewrite Hprov, Hkey. simpl. split; [done|].
  destruct (prop v "provider") as [| | | |p| |]; try done.
  simpl in Hprov. apply String.eqb_eq in Hprov. by subst p.
Qed.

Lemma loaded_openai_is_ready_witness :
  let s := Platform.start {[ "OPENAI_API_KEY" := "sk-test" ]} ∅ in
  let s' := (@loadConfig Platform.externals s).2 in
  @isValidForProvider Platform.externals "openai" s' = (inr true, s') ∧
  @isValidForProvider Platform.externals "lmstudio" s' = (inr false, s').
Proof.
  intros s s'.
  apply (@loaded_openai_is_ready Platform.externals s 1%positive s'); by_vm.
Defined.

(** X3.  A load that returns a configuration for 'lmstudio' leaves the
    manager ready for 'lmstudio' only when the endpoint and the model are
    both set and not empty, which [build] does not require: a load can
    succeed and the readiness check still answer false.  When the
    endpoint is not empty it is one the URL constructor accepts. *)
Theorem loaded_lmstudio_readiness `{Externals} s l s' :
  loadConfig s = (inr l, s') →
  let c := default ∅ (heap s' !! l) in
  strictEqString (prop c "provider") "lmstudio" = true →
  isValidForProvider "lmstudio" s' =
    (inr (truthy (prop c "lmstudio_endpoint")
          && truthy (prop c "lmstudio_model")), s') ∧
  isValidForProvider "openai" s' = (inr false, s') ∧
  (truthy (prop c "lmstudio_endpoint") = true →
   URL_canParse (ToString (prop c "lmstudio_endpoint")) = true).
Proof.
  intros Hload c Hprov. subst c.
  apply loadConfig_returns in Hload
    as (s1 & s2 & f & v & _ & _ & Hb & -> & ->).
  apply build_returns in Hb as (_ & _ & Hreq).
  set (l := fresh (dom (heap s2))) in *.
  assert (heap (loaded s2 v) !! l = Some v) as Hl
    by apply lookup_insert_eq.
  rewrite Hl in Hprov. rewrite Hl. simpl in Hprov. simpl default.
  rewrite !(isValidForProvider_cached _ _ l) by done.
  rewrite Hl. simpl. rewrite Hprov. simpl.
  assert (strictEqString (prop v "provider") "openai" = false) as Hno.
  { destruct (prop v "provider") as [| | | |p| |]; try done.
    simpl in Hprov. apply String.eqb_eq in Hprov. by subst p. }
  rewrite Hno. split; [done|]. split; [done|].
  intros Hset. rewrite validateProviderRequirements_cases in Hreq.
  rewrite Hprov, Hno, Hset in Hreq. simpl in Hreq.
  by destruct (URL_canParse _).
Qed.

Lemma loaded_lmstudio_readiness_witness :
  let fs : gmap string FileEntry :=
    {[ "/proj/.documenter.json" := Content (Platform.endpointText "") ]} in
  let s' := (@loadConfig Platform.externals (Platform.start ∅ fs)).2 in
  (@loadConfig Platform.externals (Platform.start ∅ fs)).1 = inr 1%positive ∧
  @isValidForProvider Platform.externals "lmstudio" s' = (inr false, s').
Proof.
  intros fs s'. split; [by_vm|].
  destruct (@loaded_lmstudio_readiness Platform.externals
              (Platform.start ∅ fs) 1%positive s' ltac:(by_vm) ltac:(by_vm))
    as (Hready & _).
  rewrite Hready. by_vm.
Defined.

(** ** The guards of [build] *)

(** X4.  After [withDefaults], the provider of the accumulator is empty
    exactly when the file layer itself sets it to a falsy value
    (undefined, null, the empty string, ...): the environment layer and
    the defaults only ever supply a non-empty one.  In that case [build]
    throws 'Provider must be specified' whatever the validator would
    say. *)
Theorem provider_guard_after_defaults `{Externals} env fileConfig :
  (truthy (prop (accumulate env fileConfig) "provider") = false ↔
   ∃ v, ownProperties fileConfig !! "provider" = Some v ∧ truthy v = false) ∧
  (truthy (prop (accumulate env fileConfig) "provider") = false →
   build (accumulate env fileConfig) =
     inl (ConfigurationError "Provider must be specified" ∅ None)).
Proof.
  split.
  - unfold prop. rewrite accumulate_lookup. unfold layered.
    destruct (ownProperties fileConfig !! "provider") as [v|] eqn:Hf.
    { simpl. split; [by exists v|]. by intros (v' & [= <-] & Hv). }
    destruct (envConfig env !! "provider") as [v|] eqn:He.
    { simpl. rewrite (envConfig_truthy _ _ _ He). split; [done|].
      by intros (v' & ? & _). }
    split; [by vm_compute|]. by intros (v' & ? & _).
  - intros Hfalsy. unfold build. by rewrite Hfalsy.
Qed.

Lemma provider_guard_after_defaults_witness :
  let fileConfig := VObject {[ "provider" := VUndefined ]} in
  @build Platform.externals
     (accumulate {[ "LLM_PROVIDER" := "lmstudio" ]} fileConfig) =
    inl (ConfigurationError "Provider must be specified" ∅ None).
Proof.
  intros fileConfig.
  apply (@provider_guard_after_defaults Platform.externals).
  apply (@provider_guard_after_defaults Platform.externals).
  exists VUndefined. split; by_vm.
Defined.

(** ** Loading, reloading and resetting *)

Lemma cache_blind_bind {A B} (m : M A) (k : A → M B) :
  cache_blind m → (∀ a, cache_blind (k a)) → cache_blind (bind m k).
Proof.
  intros Hm Hk c s. unfold bind. rewrite Hm.
  destruct (m s) as [[e|a] s1]; simpl; [done|]. apply Hk.
Qed.

Lemma cache_blind_tryCatch {A} (m : M A) (h : JSError → M A) :
  cache_blind m → (∀ e, cache_blind (h e)) → cache_blind (tryCatch m h).
Proof.
  intros Hm Hh c s. unfold tryCatch. rewrite Hm.
  destruct (m s) as [[e|a] s1]; simpl; [apply Hh|done].
Qed.

Lemma cache_blind_readFile path : cache_blind (readFile path).
Proof.
  intros c s. unfold readFile. simpl.
  by destruct (files s !! path) as [[]|].
Qed.

Section Blind.

Context {ext : Externals}.

Lemma cache_blind_dotenv path : cache_blind (dotenv path).
Proof.
  intros c s. unfold dotenv. simpl.
  by destruct (dotenv_config _ _ _ _) as [env' [e|]].
Qed.

Lemma cache_blind_loadEnvConfig : cache_blind loadEnvConfig.
Proof.
  unfold loadEnvConfig. apply cache_blind_bind; [done|]. intros d.
  apply cache_blind_tryCatch; [apply cache_blind_dotenv|]. intros _.
  apply cache_blind_bind; [done|]. intros env.
  apply cache_blind_tryCatch; intros; apply cache_blind_dotenv.
Qed.

Lemma cache_blind_tryCandidate path : cache_blind (tryCandidate path).
Proof.
  unfold tryCandidate. apply cache_blind_tryCatch.
  - apply cache_blind_bind; [apply cache_blind_readFile|]. intros text.
    apply cache_blind_bind; [done|]. intros v.
    apply cache_blind_tryCatch; [|done].
    apply cache_blind_bind; done.
  - intros e. destruct (isConfigurationError e); [done|]. by destruct e.
Qed.

Lemma cache_blind_searchPaths paths : cache_blind (searchPaths paths).
Proof.
  induction paths as [|p rest IH]; simpl; [done|].
  apply cache_blind_bind; [apply cache_blind_tryCandidate|].
  by intros [v|].
Qed.

Lemma cache_blind_loadFromFiles : cache_blind loadFromFiles.
Proof.
  unfold loadFromFiles. apply cache_blind_bind; [done|]. intros d.
  apply cache_blind_searchPaths.
Qed.

Lemma loadFromFiles_throws_configuration s e s' :
  loadFromFiles s = (inl e, s') → isConfigurationError e = true.
Proof.
  unfold loadFromFiles. monad_unfold. generalize (configPaths (cwd s)).
  intros paths. revert s. induction paths as [|p rest IH]; intros s; simpl.
  { done. }
  unfold bind at 1.
  destruct (tryCandidate p s) as [[e0|[v|]] s1] eqn:E; try done.
  - intros [= <- <-]. revert E. unfold tryCandidate. monad_unfold.
    destruct (readFile p s) as [[e1|text] s2].
    { destruct (isConfigurationError e1) eqn:E1; [by intros [= <- _]|].
      by destruct e1; intros [= <- _]. }
    destruct (JSON_parse text) as [e1|v].
    { destruct (isConfigurationError e1) eqn:E1; [by intros [= <- _]|].
      by destruct e1; intros [= <- _]. }
    destruct (validateConfig FileMode v); simpl; [|done].
    by intros [= <- _].
  - apply IH.
Qed.

(** The body of [loadConfig] up to the validated object, and what the
    method makes of its outcome. *)
Lemma loadConfig_outcome s :
  loadConfig s =
  match loadEnvConfig s with
  | (inl e, s1) => (inl (surfaced e), s1)
  | (inr _, s1) =>
      match loadFromFiles s1 with
      | (inl e, s2) => (inl (surfaced e), s2)
      | (inr fileConfig, s2) =>
          match build (accumulate (process_env s2) fileConfig) with
          | inl e => (inl (surfaced e), s2)
          | inr validated =>
              (inr (fresh (dom (heap s2))), loaded s2 validated)
          end
      end
  end.
Proof.
  unfold loadConfig, surfaced, failedToLoad. monad_unfold.
  destruct (loadEnvConfig s) as [[e|[]] s1].
  { by destruct (isConfigurationError e). }
  destruct (loadFromFiles s1) as [[e|f] s2].
  { by destruct (isConfigurationError e). }
  destruct (build _) as [e|v]; [|done].
  by destruct (isConfigurationError e).
Qed.

Lemma loadConfig_withCache c s :
  loadConfig (withCache c s) =
  match (loadConfig s).1 with
  | inr l => loadConfig s
  | inl e => (inl e, withCache c (loadConfig s).2)
  end.
Proof.
  rewrite !loadConfig_outcome. rewrite cache_blind_loadEnvConfig.
  destruct (loadEnvConfig s) as [[e|[]] s1]; simpl; [done|].
  rewrite cache_blind_loadFromFiles.
  destruct (loadFromFiles s1) as [[e|f] s2]; simpl; [done|].
  by destruct (build _).
Qed.

End Blind.

(** X5.  Every error of a load reaches the caller as a
    ConfigurationError: an error of the file search is one already and is
    passed on as it is; an error of [build] or of the environment loader
    is passed on when it is a ConfigurationError and is otherwise wrapped
    as 'Failed to load configuration: ...' with the original attached. *)
Theorem load_errors_surface `{Externals} s e s' :
  loadConfig s = (inl e, s') →
  isConfigurationError e = true ∧
  ∃ e0,
    e = (if isConfigurationError e0 then e0
         else ConfigurationError
                ("Failed to load configuration: " ++ getErrorMessage e0) ∅
                (Some e0)) ∧
    (loadEnvConfig s = (inl e0, s') ∨
     (∃ s1, loadEnvConfig s = (inr tt, s1) ∧
            loadFromFiles s1 = (inl e0, s') ∧ e = e0) ∨
     (∃ s1 fileConfig,
        loadEnvConfig s = (inr tt, s1) ∧
        loadFromFiles s1 = (inr fileConfig, s') ∧
        build (accumulate (process_env s1) fileConfig) = inl e0)).
Proof.
  rewrite loadConfig_outcome.
  assert (∀ e0, isConfigurationError (surfaced e0) = true) as Hs.
  { intros e0. unfold surfaced. by destruct (isConfigurationError e0) eqn:E. }
  destruct (loadEnvConfig s) as [[e0|[]] s1] eqn:E1.
  { intros [= <- <-]. split; [apply Hs|]. exists e0. split; [done|by left]. }
  destruct (loadFromFiles s1) as [[e0|f] s2] eqn:E2.
  { intros [= <- <-]. split; [apply Hs|]. exists e0. split; [done|].
    right; left. exists s1. repeat split; try done.
    unfold surfaced. by rewrite (loadFromFiles_throws_configuration _ _ _ E2). }
  pose proof (loadFromFiles_effect _ _ _ E2) as [_ Henv]. rewrite Henv.
  destruct (build _) as [e0|v] eqn:E3; [|done].
  intros [= <- <-]. split; [apply Hs|]. exists e0. split; [done|].
  right; right. by exists s1, f.
Qed.

Lemma load_errors_surface_witness :
  let p := "/proj/.documenter.json" in
  let s := Platform.start ∅ {[ p := Content "{ broken" ]} in
  let e := ConfigurationError
             ("Invalid JSON in configuration file " ++ p ++
              ": Unexpected token")
             {[ "configPath" := VString p ]}
             (Some (SyntaxError "Unexpected token")) in
  (@loadConfig Platform.externals s).1 = inl e ∧
  isConfigurationError e = true.
Proof.
  intros p s e.
  assert (@loadConfig Platform.externals s =
          (inl e, (@loadConfig Platform.externals s).2)) as E by by_vm.
  split; [by_vm|].
  exact (proj1 (@load_errors_surface Platform.externals s e _ E)).
Defined.

(** X6.  A load never looks at the cache: from a state that differs only
    in the manager field it performs the same reads, throws the same error
    or returns the same reference and leaves the same state (on a throw,
    up to that field, which it leaves alone).  Hence [reset] followed by
    [getConfig] is a full load from the current environment and files,
    whatever was cached before. *)
Theorem reset_forces_reload `{Externals} s :
  (∀ c,
     loadConfig (withCache c s) =
     match (loadConfig s).1 with
     | inr l => loadConfig s
     | inl e => (inl e, withCache c (loadConfig s).2)
     end) ∧
  (_ <- reset ;; getConfig) s =
    match (loadConfig s).1 with
    | inr l => loadConfig s
    | inl e => (inl e, withCache None (loadConfig s).2)
    end.
Proof.
  split; [intros c; apply loadConfig_withCache|].
  unfold reset, setConfig. unfold bind at 1. fold (withCache None s).
  rewrite unloaded_getConfig_eq by done. apply loadConfig_withCache.
Qed.

Lemma reset_forces_reload_witness :
  let s0 := Platform.start {[ "OPENAI_API_KEY" := "sk-old" ]} ∅ in
  let s1 := (@getConfig Platform.externals s0).2 in
  let s2 := setEnv {[ "OPENAI_API_KEY" := "sk-new" ]} s1 in
  let s3 := ((_ <- reset ;; @getConfig Platform.externals) s2).2 in
  ((_ <- reset ;; @getConfig Platform.externals) s2).1 = inr 2%positive ∧
  prop (default ∅ (heap s3 !! 2%positive)) "openai_api_key"
    = VString "sk-new" ∧
  prop (default ∅ (heap s3 !! 1%positive)) "openai_api_key"
    = VString "sk-old".
Proof.
  intros s0 s1 s2 s3. unfold s3.
  rewrite (proj2 (@reset_forces_reload Platform.externals s2)).
  assert ((@loadConfig Platform.externals s2).1 = inr 2%positive) as ->
    by by_vm.
  all_by_vm.
Defined.

Section Reload.

Context {ext : Externals}.

Lemma loadConfig_returns_heap s l s' :
  loadConfig s = (inr l, s') →
  config s' = Some l ∧ heap s !! l = None ∧
  ∃ validated, heap s' = <[l := validated]> (heap s).
Proof.
  intros Hload.
  apply loadConfig_returns in Hload
    as (s1 & s2 & f & v & H1 & H2 & _ & -> & ->).
  apply loadEnvConfig_effect in H1 as (_ & Hh1 & _).
  apply loadFromFiles_effect in H2 as ((_ & Hh2 & _) & _).
  simpl. rewrite Hh2, Hh1. split; [done|].
  split; [apply fresh_not_live|by exists v].
Qed.

End Reload.

(** X7.  [loadConfig] called again on a loaded manager does not update
    the cached object: it stores a new object under a new reference and
    caches that one, and the object of the earlier load stays in the
    store unchanged, so whoever holds the earlier reference still reads
    the earlier configuration. *)
Theorem reload_allocates_anew `{Externals} s l1 s1 l2 s2 :
  loadConfig s = (inr l1, s1) →
  loadConfig s1 = (inr l2, s2) →
  l1 ≠ l2 ∧ config s2 = Some l2 ∧
  is_Some (heap s1 !! l1) ∧ heap s2 !! l1 = heap s1 !! l1.
Proof.
  intros H1 H2.
  apply loadConfig_returns_heap in H1 as (_ & _ & v1 & Hh1).
  apply loadConfig_returns_heap in H2 as (Hc2 & Hfresh & v2 & Hh2).
  assert (heap s1 !! l1 = Some v1) as Hl1
    by (rewrite Hh1; apply lookup_insert_eq).
  assert (l1 ≠ l2) as Hne.
  { intros ->. rewrite Hl1 in Hfresh. done. }
  split; [done|]. split; [done|]. split; [by eexists|].
  rewrite Hh2. by rewrite lookup_insert_ne.
Qed.

Lemma reload_allocates_anew_witness :
  let s := Platform.start {[ "OPENAI_API_KEY" := "sk-test" ]} ∅ in
  let s1 := (@loadConfig Platform.externals s).2 in
  let s2 := (@loadConfig Platform.externals s1).2 in
  config s1 = Some 1%positive ∧ config s2 = Some 2%positive ∧
  heap s2 !! 1%positive = heap s1 !! 1%positive.
Proof.
  intros s s1 s2.
  destruct (@reload_allocates_anew Platform.externals s 1%positive s1
              2%positive s2 ltac:(by_vm) ltac:(by_vm))
    as (_ & Hc & _ & Hh).
  split; [by_vm|]. split; [exact Hc|exact Hh].
Defined.

(** X8.  A failure is not remembered: [getConfig] throws only from an
    empty cache, the error is a ConfigurationError, the cache is still
    empty afterwards, and the next [getConfig] runs a full load again. *)
Theorem errors_are_not_cached `{Externals} s e s' :
  getConfig s = (inl e, s') →
  config s = None ∧ isConfigurationError e = true ∧
  config s' = None ∧ getConfig s' = loadConfig s'.
Proof.
  intros Hget. destruct (config s) as [c|] eqn:Hc.
  { rewrite (cached_getConfig_eq _ c) in Hget by done. discriminate. }
  rewrite unloaded_getConfig_eq in Hget by done.
  apply loadConfig_throws in Hget as (He & Hc' & _).
  rewrite Hc in Hc'.
  split; [done|]. split; [done|]. split; [done|].
  by apply unloaded_getConfig_eq.
Qed.

Lemma errors_are_not_cached_witness :
  let s := Platform.start ∅ ∅ in
  let s' := (@getConfig Platform.externals s).2 in
  let s'' := setEnv {[ "OPENAI_API_KEY" := "sk-test" ]} s' in
  config s' = None ∧
  (@getConfig Platform.externals s'').1 = inr 1%positive.
Proof.
  intros s s' s''.
  destruct (@errors_are_not_cached Platform.externals s
              (ConfigurationError apiKeyMessage
                 {[ "provider" := VString "openai" ]} None) s'
              ltac:(by_vm)) as (_ & _ & Hc & _).
  split; [exact Hc|by_vm].
Defined.

(** ** The environment file and the configuration file *)

(** The directory [loadEnvConfig] looks for the user's file in: HOME
    when it is set and not empty, else USERPROFILE when it is set, else
    the empty string. *)
Lemma homeDir_cases env :
  homeDir env =
  match env !! "HOME" with
  | Some (String c h) => String c h
  | _ => match env !! "USERPROFILE" with
         | Some u => u
         | None => EmptyString
         end
  end.
Proof.
  unfold homeDir.
  destruct (env !! "HOME") as [[|c h]|]; simpl;
    by destruct (env !! "USERPROFILE").
Qed.

(** X9.  In a process that has a working directory, the environment
    loader calls [dotenv.config] for the [.env] of that directory first.
    Only when that call throws does it go on to [.documenter/.env] under
    HOME (when HOME is set and not empty, else under USERPROFILE, else
    under the empty string), and only when that call throws as well to
    the call without a path.  The errors of the first two calls are
    swallowed; the loader throws only when all three calls throw, with
    the error of the last.  So a first call that returns, with or without
    a local file, ends the search. *)
Theorem env_file_fallback `{Externals} s :
  let dir := cwd s in
  let fs := files s in
  let localPath := Some (path_join [dir; ".env"]) in
  let r1 := dotenv_config localPath dir fs (process_env s) in
  let home :=
    match r1.1 !! "HOME" with
    | Some (String c h) => String c h
    | _ => match r1.1 !! "USERPROFILE" with
           | Some u => u
           | None => EmptyString
           end
    end in
  let globalPath := Some (path_join [home; ".documenter"; ".env"]) in
  let r2 := dotenv_config globalPath dir fs r1.1 in
  let r3 := dotenv_config None dir fs r2.1 in
  loadEnvConfig s =
    match r1.2, r2.2, r3.2 with
    | None, _, _ => (inr tt, after s r1.1 [DotenvConfig localPath])
    | Some _, None, _ =>
        (inr tt,
         after s r2.1 [DotenvConfig localPath; DotenvConfig globalPath])
    | Some _, Some _, None =>
        (inr tt,
         after s r3.1
           [DotenvConfig localPath; DotenvConfig globalPath;
            DotenvConfig None])
    | Some _, Some _, Some e =>
        (inl e,
         after s r3.1
           [DotenvConfig localPath; DotenvConfig globalPath;
            DotenvConfig None])
    end.
Proof.
  cbv zeta. rewrite <- homeDir_cases.
  unfold loadEnvConfig, dotenv, after. monad_unfold. simpl.
  destruct (dotenv_config (Some (path_join [cwd s; ".env"])) (cwd s)
              (files s) (process_env s)) as [env1 [e1|]]; simpl; [|done].
  destruct (dotenv_config
              (Some (path_join [homeDir env1; ".documenter"; ".env"]))
              (cwd s) (files s) env1) as [env2 [e2|]]; simpl.
  2: { unfold setEnv, log; simpl. by rewrite <- app_assoc. }
  destruct (dotenv_config None (cwd s) (files s) env2) as [env3 [e3|]];
    simpl; unfold setEnv, log; simpl; by rewrite <- !app_assoc.
Qed.

Lemma env_file_fallback_witness :
  let userFile := "/home/u/.documenter/.env" in
  let s1 :=
    Platform.start (<["HOME" := "/home/u"]> {[ "USERPROFILE" := "/win" ]})
                   {[ userFile := Content "OPENAI_API_KEY=sk-test" ]} in
  let s2 :=
    Platform.start (<["HOME" := EmptyString]> {[ "USERPROFILE" := "/win" ]})
                   ∅ in
  @loadEnvConfig StrictDotenv.externals s1 =
    (inr tt,
     after s1 (<["DOTENV_FILE" := userFile]> (process_env s1))
       [DotenvConfig (Some "/proj/.env"); DotenvConfig (Some userFile)]) ∧
  @loadEnvConfig StrictDotenv.externals s2 =
    (inl (Error "ENOENT" "/proj/.env"),
     after s2 (process_env s2)
       [DotenvConfig (Some "/proj/.env");
        DotenvConfig (Some "/win/.documenter/.env"); DotenvConfig None]) ∧
  @loadEnvConfig Platform.externals s2 =
    (inr tt, after s2 (process_env s2) [DotenvConfig (Some "/proj/.env")]).
Proof.
  intros userFile s1 s2. split; [|split].
  - rewrite (@env_file_fallback StrictDotenv.externals s1). by_vm.
  - rewrite (@env_file_fallback StrictDotenv.externals s2). by_vm.
  - rewrite (@env_file_fallback Platform.externals s2). by_vm.
Defined.

(** X10.  The search for a configuration file only reads: it leaves the
    manager field, the object store, the environment and the files as
    they are, and it reads the first candidate, or the first and then the
    second, and nothing else; the second is read exactly when the first
    was passed over. *)
Theorem file_search_reads `{Externals} s r s' :
  loadFromFiles s = (r, s') →
  let p1 := path_join [cwd s; ".documenter.json"] in
  let p2 := path_join [cwd s; "documenter.config.json"] in
  same_but_log s s' ∧
  (tryCandidate p1 s = (inr None, log (ReadFile p1) s) ∧
   io_log s' = (io_log s ++ [ReadFile p1; ReadFile p2])%list
   ∨
   tryCandidate p1 s ≠ (inr None, log (ReadFile p1) s) ∧
   io_log s' = (io_log s ++ [ReadFile p1])%list).
Proof.
  intros Hload p1 p2. split; [by eapply loadFromFiles_effect|].
  revert Hload. unfold loadFromFiles, configPaths. monad_unfold.
  fold p1 p2. simpl. unfold bind at 1.
  destruct (tryCandidate p1 s) as [[e|[v|]] s1] eqn:E1;
    pose proof (tryCandidate_effect _ _ _ _ E1) as ->.
  - intros [= <- <-]. by right.
  - intros [= <- <-]. by right.
  - left. split; [done|]. revert Hload. unfold bind at 1.
    destruct (tryCandidate p2 _) as [[e|[v|]] s2] eqn:E2;
      pose proof (tryCandidate_effect _ _ _ _ E2) as ->;
      intros [= <- <-]; simpl; by rewrite <- app_assoc.
Qed.

Lemma file_search_reads_witness :
  let p1 := "/proj/.documenter.json" in
  let p2 := "/proj/documenter.config.json" in
  let fs : gmap string FileEntry :=
    <[p1 := Content "{}"]> {[ p2 := Content "{ broken" ]} in
  let s := Platform.start ∅ fs in
  io_log (@loadFromFiles Platform.externals s).2 = [ReadFile p1].
Proof.
  intros p1 p2 fs s.
  destruct (@loadFromFiles Platform.externals s) as [r s'] eqn:E.
  destruct (@file_search_reads Platform.externals s r s' E)
    as (_ & [[Hskip _]|[_ Hlog]]).
  - exfalso. vm_compute in Hskip. discriminate Hskip.
  - change (io_log s' = [ReadFile p1]). rewrite Hlog. by_vm.
Defined.

(** ** The layers of the builder *)

(** X11.  The environment layer writes only the eight recognized fields
    and removes none.  Its provider is always one of the two identifiers
    in lower case: LLM_PROVIDER is accepted in any letter case, and any
    other value leaves the provider of the accumulator as it was. *)
Theorem env_layer_shape env (acc : Obj) :
  (∀ k, is_Some (acc !! k) → is_Some (withEnvironment env acc !! k)) ∧
  (∀ k, k ∉ recognized.*2 → withEnvironment env acc !! k = acc !! k) ∧
  (∀ v, envConfig env !! "provider" = Some v →
        v = VString "openai" ∨ v = VString "lmstudio") ∧
  (∀ t, env !! "LLM_PROVIDER" = Some t →
        toLowerCase t = "openai" ∨ toLowerCase t = "lmstudio" →
        withEnvironment env acc !! "provider"
          = Some (VString (toLowerCase t))) ∧
  (∀ t, env !! "LLM_PROVIDER" = Some t →
        toLowerCase t ≠ "openai" → toLowerCase t ≠ "lmstudio" →
        withEnvironment env acc !! "provider" = acc !! "provider").
Proof.
  assert (∀ t, envValue "provider" t =
               if String.eqb (toLowerCase t) "openai"
                  || String.eqb (toLowerCase t) "lmstudio"
               then Some (VString (toLowerCase t)) else None) as Hval by done.
  split; [|split; [|split; [|split]]].
  - intros k [v Hv]. unfold withEnvironment, spread. rewrite lookup_union.
    rewrite Hv. destruct (envConfig env !! k); by eexists.
  - intros k Hk. unfold withEnvironment, spread. rewrite lookup_union.
    destruct (envConfig env !! k) as [v|] eqn:E.
    { by apply envConfig_fields in E. }
    by destruct (acc !! k).
  - intros v. rewrite (envConfig_lookup _ "LLM_PROVIDER") by in_list.
    unfold envField. destruct (env !! "LLM_PROVIDER") as [t|]; [|done].
    destruct (String.eqb t ""); [done|]. rewrite Hval.
    destruct (String.eqb (toLowerCase t) "openai") eqn:E1; simpl.
    { apply String.eqb_eq in E1. rewrite E1. intros [= <-]. by left. }
    destruct (String.eqb (toLowerCase t) "lmstudio") eqn:E2; [|done].
    apply String.eqb_eq in E2. rewrite E2. intros [= <-]. by right.
  - intros t Ht Hok.
    rewrite (withEnvironment_lookup _ _ "LLM_PROVIDER") by in_list.
    unfold envField. rewrite Ht, Hval.
    assert (String.eqb t "" = false) as ->.
    { apply String.eqb_neq. intros ->. by destruct Hok. }
    by destruct Hok as [-> | ->].
  - intros t Ht H1 H2.
    rewrite (withEnvironment_lookup _ _ "LLM_PROVIDER") by in_list.
    unfold envField. rewrite Ht, Hval.
    apply String.eqb_neq in H1, H2. rewrite H1, H2. simpl.
    by destruct (String.eqb t "").
Qed.

Lemma env_layer_shape_witness :
  withEnvironment {[ "LLM_PROVIDER" := "LMStudio" ]} defaults !! "provider"
    = Some (VString "lmstudio") ∧
  withEnvironment {[ "LLM_PROVIDER" := "azure" ]} defaults !! "provider"
    = Some (VString "openai").
Proof.
  split.
  - rewrite (proj1 (proj2 (proj2 (proj2
               (env_layer_shape {[ "LLM_PROVIDER" := "LMStudio" ]} defaults))))
               "LMStudio"); [by_vm|by_vm|right; by_vm].
  - rewrite (proj2 (proj2 (proj2 (proj2
               (env_layer_shape {[ "LLM_PROVIDER" := "azure" ]} defaults))))
               "azure"); [by_vm|by_vm|discriminate|discriminate].
Defined.

Lemma spread_idemp (c layer : Obj) :
  spread (spread c layer) layer = spread c layer.
Proof. unfold spread. by rewrite (assoc_L (∪)), (idemp_L (∪)). Qed.

(** X12.  Applying a layer twice is applying it once, and the order of
    the layers is what decides: [withDefaults] called after the other
    layers puts every defaulted field back to its default, whatever the
    environment or the file had set, and keeps only what has no default
    (such as the API key). *)
Theorem layer_order_decides (c : Obj) env fileConfig :
  withDefaults (withDefaults c) = withDefaults c ∧
  withEnvironment env (withEnvironment env c) = withEnvironment env c ∧
  withFile fileConfig (withFile fileConfig c) = withFile fileConfig c ∧
  (∀ k, is_Some (defaults !! k) →
        withDefaults (withFile fileConfig (withEnvironment env c)) !! k
          = defaults !! k) ∧
  (∀ k, defaults !! k = None →
        withDefaults (withFile fileConfig (withEnvironment env c)) !! k
          = withFile fileConfig (withEnvironment env c) !! k).
Proof.
  split; [apply spread_idemp|]. split; [apply spread_idemp|].
  split; [apply spread_idemp|]. split.
  - intros k [v Hv]. unfold withDefaults, spread.
    rewrite lookup_union, Hv.
    by destruct (withFile fileConfig (withEnvironment env c) !! k).
  - intros k Hk. unfold withDefaults, spread.
    rewrite lookup_union, Hk.
    by destruct (withFile fileConfig (withEnvironment env c) !! k).
Qed.

Lemma layer_order_decides_witness :
  let fileConfig := Platform.endpointValue "http://127.0.0.1:8080/v1" in
  let env : gmap string string := {[ "OPENAI_API_KEY" := "sk-test" ]} in
  let late := withDefaults (withFile fileConfig (withEnvironment env ∅)) in
  late !! "provider" = Some (VString "openai") ∧
  late !! "openai_api_key" = Some (VString "sk-test").
Proof.
  intros fileConfig env late.
  destruct (layer_order_decides ∅ env fileConfig) as (_ & _ & _ & Hd & Hk).
  split.
  - unfold late. rewrite Hd; [by_vm|]. exists (VString "openai"). by_vm.
  - unfold late. rewrite Hk; by_vm.
Defined.

(** ** Numbers from the environment *)

Lemma parseInt_positive_text v :
  isPositiveIntegerText v = true →
  (decimal (codes v) < 2 ^ 53)%Z →
  v ≠ "" ∧ parseInt v = Finite (decimal (codes v)) 0 ∧
  (0 < decimal (codes v))%Z.
Proof.
  unfold isPositiveIntegerText, parseInt. intros Htext Hlt.
  destruct (codes v) as [|c r] eqn:Hcodes; [done|].
  apply andb_prop in Htext as [Hall Hpos]. apply Z.ltb_lt in Hpos.
  split; [by intros ->|]. split; [|done].
  pose proof Hall as Hall'. simpl in Hall'.
  apply andb_prop in Hall' as [Hc _].
  rewrite trimStart_digit by done.
  pose proof (is_digit_range _ Hc) as Hrange.
  assert (digits (c :: r) = c :: r) as Hd by by apply digits_all.
  rewrite sign_of_digit by lia.
  rewrite Hd. by apply toNumber_exact.
Qed.

(** X13.  A numeric variable whose text is a positive integer written in
    decimal digits, below 2^53, sets its field to exactly that integer,
    over whatever an earlier layer had put there. *)
Theorem positive_integer_text_accepted env var field (acc : Obj) v :
  (var, field) ∈ numeric →
  env !! var = Some v →
  isPositiveIntegerText v = true →
  (decimal (codes v) < 2 ^ 53)%Z →
  withEnvironment env acc !! field =
    Some (VNumber (Finite (decimal (codes v)) 0)).
Proof.
  intros Hin Hv Htext Hlt.
  destruct (parseInt_positive_text v Htext Hlt) as (Hne & Hparse & Hpos).
  rewrite (withEnvironment_lookup _ _ var) by by apply numeric_recognized.
  unfold envField. rewrite Hv.
  apply String.eqb_neq in Hne. rewrite Hne.
  assert (envValue field v =
          if negb (isNaN (parseInt v)) && gt0 (parseInt v)
          then Some (VNumber (parseInt v)) else None) as ->.
  { unfold numeric in Hin. rewrite !elem_of_cons, elem_of_nil in Hin.
    destruct Hin as [[= -> ->]|[[= -> ->]|[]]]; done. }
  rewrite Hparse. simpl. apply Z.ltb_lt in Hpos. by rewrite Hpos.
Qed.

Lemma positive_integer_text_accepted_witness :
  withEnvironment {[ "MAX_CONVERSATION_HISTORY" := "25" ]} defaults
    !! "max_conversation_history" = Some (VNumber (Finite 25 0)).
Proof.
  apply (positive_integer_text_accepted
           {[ "MAX_CONVERSATION_HISTORY" := "25" ]}
           "MAX_CONVERSATION_HISTORY" "max_conversation_history" defaults
           "25"); [in_list|by_vm|by_vm|reflexivity].
Defined.

(** ** Redaction, once more *)

Lemma redacted_key (c : Obj) :
  truthy (prop (redacted c) "openai_api_key") = true →
  prop (redacted c) "openai_api_key" = VString "[REDACTED]".
Proof.
  unfold redacted.
  destruct (truthy (prop c "openai_api_key")) eqn:E; [|congruence].
  intros _. unfold prop. by rewrite lookup_insert_eq.
Qed.

Lemma redacted_idemp (c : Obj) : redacted (redacted c) = redacted c.
Proof.
  unfold redacted at 1.
  destruct (truthy (prop (redacted c) "openai_api_key")) eqn:E; [|done].
  revert E. unfold redacted.
  destruct (truthy (prop c "openai_api_key")) eqn:Ec; [|congruence].
  intros _. apply insert_insert_eq.
Qed.

Lemma redacted_dom (c : Obj) : dom (redacted c) = dom c.
Proof.
  unfold redacted.
  destruct (truthy (prop c "openai_api_key")) eqn:E; [|done].
  rewrite dom_insert_L. apply subseteq_union_1_L, singleton_subseteq_l.
  apply elem_of_dom. unfold prop in E.
  destruct (c !! "openai_api_key"); [by eexists|done].
Qed.

(** X14.  The sanitised copy never carries a usable key: whatever the
    key of the configuration was (a string or not), the key of the copy
    is either still absent or falsy, or it is '[REDACTED]'.  The copy has
    the same set of fields as the original and the same summary, and
    sanitising the copy again gives a third object equal to the copy. *)
Theorem sanitize_is_final (s : State) (l : loc) (c : Obj)
    (Hlive : heap s !! l = Some c) :
  ∃ l1 s1 l2 s2 c1,
    sanitizeConfigForLogging l s = (inr l1, s1) ∧
    sanitizeConfigForLogging l1 s1 = (inr l2, s2) ∧
    l1 ≠ l2 ∧
    heap s1 !! l1 = Some c1 ∧ heap s2 !! l1 = Some c1 ∧
    heap s2 !! l2 = Some c1 ∧
    (truthy (prop c1 "openai_api_key") = true →
     prop c1 "openai_api_key" = VString "[REDACTED]") ∧
    dom c1 = dom c ∧
    ∀ workingDir, summaryOf c1 workingDir = summaryOf c workingDir.
Proof.
  set (l1 := fresh (dom (heap s))).
  set (s1 := setHeap (<[l1 := redacted c]> (heap s)) s).
  set (l2 := fresh (dom (heap s1))).
  exists l1, s1, l2, (setHeap (<[l2 := redacted c]> (heap s1)) s1),
         (redacted c).
  assert (heap s1 !! l1 = Some (redacted c)) as H1
    by apply lookup_insert_eq.
  assert (l1 ≠ l2) as Hne.
  { intros Heq. pose proof (fresh_not_live (heap s1)) as Hf.
    fold l2 in Hf. rewrite <- Heq, H1 in Hf. done. }
  split.
  { rewrite sanitizeConfigForLogging_eq. by rewrite Hlive. }
  split.
  { rewrite sanitizeConfigForLogging_eq. fold l2. rewrite H1. simpl.
    by rewrite redacted_idemp. }
  split; [done|]. split; [done|]. split.
  { simpl. by rewrite lookup_insert_ne. }
  split; [apply lookup_insert_eq|].
  split; [apply redacted_key|]. split; [apply redacted_dom|].
  intros workingDir. apply summaryOf_without_key. unfold redacted.
  destruct (truthy (prop c "openai_api_key")); [|done].
  apply delete_insert_eq.
Qed.

Lemma sanitize_is_final_witness :
  let c : Obj := <["openai_api_key" := VNumber (Finite 42 0)]> defaults in
  let s := mkState (Some 1%positive) {[ 1%positive := c ]} ∅ ∅ "/proj" [] in
  let s1 := (sanitizeConfigForLogging 1%positive s).2 in
  prop (default ∅ (heap s1 !! 2%positive)) "openai_api_key"
    = VString "[REDACTED]".
Proof.
  intros c s s1.
  destruct (sanitize_is_final s 1%positive c ltac:(by_vm))
    as (l1 & s1' & l2 & s2 & c1 & E1 & _ & _ & H1 & _ & _ & Hkey & _).
  assert (l1 = 2%positive ∧ s1' = s1) as [-> ->].
  { unfold s1. rewrite E1. split; [|done].
    rewrite sanitizeConfigForLogging_eq in E1. by injection E1 as <- _. }
  rewrite H1. simpl. apply Hkey.
  assert (Some c1 = Some (redacted c)) as [= ->]; [|by_vm].
  rewrite <- H1. by_vm.
Defined.
